(** * InventoryApp: the browser-local authentication module (js/auth.js)

    A shallow embedding of the login version of [js/auth.js]: the user
    store kept in [localStorage], the session kept in [sessionStorage], the
    "remember me" pointer, and the functions exported as [window.tiaAuth].

    - JavaScript values read back from storage are dynamically typed, so
      they are modelled by the values [JSON.parse] can return ([JSValue]);
      property reads and method calls raise [TypeError] where the language
      does.
    - The two storages are finite maps from keys to strings.
    - Every function that touches storage or can throw lives in the monad
      [M] (state passing over [World], plus exceptions).
    - What the browser provides ([JSON], [TextEncoder], [crypto.subtle],
      [String.prototype.toLowerCase], [Date.prototype.toISOString]) is an
      interface, the class [Platform], with the laws of [JSON] the program
      relies on.  [RefPlatform] is an executable instance.
    - [Date.now()] is an input: each function that reads the clock takes the
      reading as its argument [now].
    - [await hashPassword(..)] is the only suspension point.  The digest is
      a function of the password, and in [createUser] the store is first
      read after the suspension, in [authenticate] only before it: each
      function acts on the store at one instant, which is the [World] it is
      applied to.
    - [console.*], the DOM handlers and the page navigation of [logout] are
      not modelled; [localStorage.setItem] is taken not to run out of quota. *)

From Stdlib Require Import String Ascii ZArith List Bool Lia.
From Stdlib Require Strings.Byte.
From Stdlib Require Import Decimal DecimalString DecimalZ DecimalPos DecimalN.
From stdpp Require Import base option list gmap strings.
Import ListNotations.

Local Open Scope string_scope.
Local Open Scope Z_scope.

Set Warnings "-register-all".

(** ** JavaScript values *)

(** The values [JSON.parse] returns.  Numbers are the integers (the program
    never computes with a number it read back; they print in decimal, as
    JavaScript prints integers below 1e21); an object is the list of its own
    properties in enumeration order, each key once.  A number that is not
    an integer, or the [Infinity] an overflowing literal is read as, has no
    counterpart here: what is stated of values read back from storage is
    stated of strings and of records of strings. *)
Inductive JSValue : Type :=
| JNull
| JBool (b : bool)
| JNum (n : Z)
| JStr (s : string)
| JArr (items : list JSValue)
| JObj (fields : list (string * JSValue)).

(** What a [throw] carries: [new Error(message)] of the program, or one of
    the errors the language raises. *)
Inductive JSError : Type :=
| Error (message : string)
| TypeError
| SyntaxError.

Inductive outcome (A : Type) : Type :=
| Returns (a : A)
| Throws (e : JSError).
Arguments Returns {A} a.
Arguments Throws {A} e.

(** ToBoolean. *)
Definition truthy (v : JSValue) : bool :=
  match v with
  | JNull => false
  | JBool b => b
  | JNum n => negb (n =? 0)
  | JStr s => negb (String.eqb s "")
  | JArr _ | JObj _ => true
  end.

(** [!s] for a string. *)
Definition not_string (s : string) : bool := String.eqb s "".

(** [!raw] for what [getItem] returns: [null] (absent) or a string. *)
Definition not_item (raw : option string) : bool :=
  match raw with
  | None => true
  | Some s => not_string s
  end.

(** Own property lookup. *)
Fixpoint get_field (k : string) (fs : list (string * JSValue)) : option JSValue :=
  match fs with
  | [] => None
  | (k', v) :: fs' => if String.eqb k' k then Some v else get_field k fs'
  end.

(** [v.k] for a property name [k] that no built-in prototype defines
    ([id], [username], [passwordHash], [role], [success], [user]): [None] is
    [undefined]. *)
Definition get_prop (v : JSValue) (k : string) : outcome (option JSValue) :=
  match v with
  | JNull => Throws TypeError
  | JObj fs => Returns (get_field k fs)
  | _ => Returns None
  end.

(** [v.length]. *)
Definition get_length (v : JSValue) : outcome (option JSValue) :=
  match v with
  | JNull => Throws TypeError
  | JArr l => Returns (Some (JNum (Z.of_nat (List.length l))))
  | JStr s => Returns (Some (JNum (Z.of_nat (String.length s))))
  | JObj fs => Returns (get_field "length" fs)
  | _ => Returns None
  end.

(** [x === 0]. *)
Definition strict_eq_zero (x : option JSValue) : bool :=
  match x with
  | Some (JNum n) => n =? 0
  | _ => false
  end.

(** [s === x] for a string [s]. *)
Definition strict_eq_string (s : string) (x : option JSValue) : bool :=
  match x with
  | Some (JStr s') => String.eqb s s'
  | _ => false
  end.

(** Number::toString of an integer. *)
Definition Number_toString (n : Z) : string :=
  NilZero.string_of_int (Z.to_int n).

Fixpoint join_with (sep : string) (l : list string) : string :=
  match l with
  | [] => ""
  | [s] => s
  | s :: l' => s +:+ sep +:+ join_with sep l'
  end.

(** ToString, as [Storage.setItem] applies it to the value it is given.
    An array joins its elements with commas ([null] as the empty string);
    an object prints as [[object Object]] unless an own [toString] property
    (never callable in a parsed value) hides the inherited method. *)
Fixpoint ToString (v : JSValue) : outcome string :=
  match v with
  | JNull => Returns "null"
  | JBool true => Returns "true"
  | JBool false => Returns "false"
  | JNum n => Returns (Number_toString n)
  | JStr s => Returns s
  | JArr l =>
      match
        (fix elems (l : list JSValue) : outcome (list string) :=
           match l with
           | [] => Returns []
           | x :: l' =>
               match (match x with JNull => Returns "" | _ => ToString x end) with
               | Throws e => Throws e
               | Returns s =>
                   match elems l' with
                   | Throws e => Throws e
                   | Returns ss => Returns (s :: ss)
                   end
               end
           end) l
      with
      | Throws e => Throws e
      | Returns ss => Returns (join_with "," ss)
      end
  | JObj fs =>
      match get_field "toString" fs with
      | Some _ => Throws TypeError
      | None => Returns "[object Object]"
      end
  end.

(** ToString of a value that may be [undefined]. *)
Definition ToString_opt (x : option JSValue) : outcome string :=
  match x with
  | None => Returns "undefined"
  | Some v => ToString v
  end.

(** An object literal whose property values may be [undefined]; such
    properties are left out when the object is serialised, which is all the
    program does with it. *)
Fixpoint defined_fields (fs : list (string * option JSValue)) : list (string * JSValue) :=
  match fs with
  | [] => []
  | (k, Some v) :: fs' => (k, v) :: defined_fields fs'
  | (_, None) :: fs' => defined_fields fs'
  end.

(** [Array.prototype.find] and [Array.prototype.some] over the elements, in
    order; an exception of the callback ends the loop. *)
Fixpoint find_loop (p : JSValue -> outcome bool) (l : list JSValue) : outcome (option JSValue) :=
  match l with
  | [] => Returns None
  | u :: l' =>
      match p u with
      | Throws e => Throws e
      | Returns true => Returns (Some u)
      | Returns false => find_loop p l'
      end
  end.

Fixpoint some_loop (p : JSValue -> outcome bool) (l : list JSValue) : outcome bool :=
  match l with
  | [] => Returns false
  | u :: l' =>
      match p u with
      | Throws e => Throws e
      | Returns true => Returns true
      | Returns false => some_loop p l'
      end
  end.

(** [recv.find(p)], [recv.some(p)], [recv.push(x)]: only an array has the
    methods; on anything else the call raises [TypeError]. *)
Definition Array_find (p : JSValue -> outcome bool) (recv : JSValue) : outcome (option JSValue) :=
  match recv with
  | JArr l => find_loop p l
  | _ => Throws TypeError
  end.

Definition Array_some (p : JSValue -> outcome bool) (recv : JSValue) : outcome bool :=
  match recv with
  | JArr l => some_loop p l
  | _ => Throws TypeError
  end.

Definition Array_push (recv : JSValue) (x : JSValue) : outcome JSValue :=
  match recv with
  | JArr l => Returns (JArr (l ++ [x]))
  | _ => Throws TypeError
  end.

(** [x || null]. *)
Definition or_null (x : option JSValue) : JSValue :=
  match x with
  | Some v => if truthy v then v else JNull
  | None => JNull
  end.

(** ** The platform *)

(** What the browser provides.  [JSON_parse] is [None] where [JSON.parse]
    throws.  The laws: a value survives [parse (stringify _)], and the empty
    string is not JSON. *)
Class Platform : Type := {
  TextEncoder_encode : string -> list Byte.byte;
  SHA256_digest : list Byte.byte -> list Byte.byte;
  toLowerCase : string -> string;
  toISOString : Z -> string;
  JSON_parse : string -> option JSValue;
  JSON_stringify : JSValue -> string;
  JSON_parse_stringify : forall v, JSON_parse (JSON_stringify v) = Some v;
  JSON_parse_empty : JSON_parse "" = None
}.

(** ** Storage and the monad of the program *)

Record World : Type := mkWorld {
  localStorage : gmap string string;
  sessionStorage : gmap string string
}.

Definition M (A : Type) : Type := World -> outcome A * World.

Definition ret {A} (a : A) : M A := fun w => (Returns a, w).

Definition throw {A} (e : JSError) : M A := fun w => (Throws e, w).

Definition bind {A B} (m : M A) (k : A -> M B) : M B :=
  fun w =>
    match m w with
    | (Returns a, w') => k a w'
    | (Throws e, w') => (Throws e, w')
    end.

(** A pure step that may throw. *)
Definition lift {A} (o : outcome A) : M A := fun w => (o, w).

(** [try { m } catch (e) { h e }]. *)
Definition try_catch {A} (m : M A) (h : JSError -> M A) : M A :=
  fun w =>
    match m w with
    | (Returns a, w') => (Returns a, w')
    | (Throws e, w') => h e w'
    end.

Notation "x <- m ;; k" := (bind m (fun x => k))
  (at level 100, m at next level, right associativity).
Notation "m ;;; k" := (bind m (fun _ => k))
  (at level 100, right associativity).

Definition localStorage_getItem (k : string) : M (option string) :=
  fun w => (Returns (localStorage w !! k), w).

Definition localStorage_setItem (k v : string) : M unit :=
  fun w => (Returns tt, mkWorld (<[k := v]> (localStorage w)) (sessionStorage w)).

Definition localStorage_removeItem (k : string) : M unit :=
  fun w => (Returns tt, mkWorld (delete k (localStorage w)) (sessionStorage w)).

Definition sessionStorage_getItem (k : string) : M (option string) :=
  fun w => (Returns (sessionStorage w !! k), w).

Definition sessionStorage_setItem (k v : string) : M unit :=
  fun w => (Returns tt, mkWorld (localStorage w) (<[k := v]> (sessionStorage w))).

Definition sessionStorage_removeItem (k : string) : M unit :=
  fun w => (Returns tt, mkWorld (localStorage w) (delete k (sessionStorage w))).

(** ** js/auth.js *)

Definition USERS_KEY : string := "tia_users".
Definition SESSION_KEY : string := "tia_session".
Definition REMEMBER_KEY : string := "tia_remember".

(** [b.toString(16)] for a byte, and [s.padStart(2, '0')]. *)
Definition hex_digit (n : N) : ascii :=
  if (n <? 10)%N then ascii_of_N (48 + n) else ascii_of_N (87 + n).

Definition toString16 (n : N) : string :=
  if (n <? 16)%N then String (hex_digit n) ""
  else String (hex_digit (n / 16)) (String (hex_digit (n mod 16)) "").

Definition padStart2 (s : string) : string :=
  match s with
  | "" => "00"
  | String c "" => String "0" (String c "")
  | _ => s
  end.

(** [Array.from(bytes).map(b => b.toString(16).padStart(2, '0')).join('')] *)
Definition bufToHex (buffer : list Byte.byte) : string :=
  String.concat "" (List.map (fun b => padStart2 (toString16 (Byte.to_N b))) buffer).

(** The typed view of a stored user, and the object literal [createUser]
    builds for it. *)
Record UserRecord : Type := mkUser {
  user_id : string;
  user_username : string;
  user_passwordHash : string;
  user_role : string
}.

Definition user_object (r : UserRecord) : JSValue :=
  JObj [("id", JStr (user_id r));
        ("username", JStr (user_username r));
        ("passwordHash", JStr (user_passwordHash r));
        ("role", JStr (user_role r))].

Section Auth.
Context {P : Platform}.

Definition hashPassword (password : string) : string :=
  bufToHex (SHA256_digest (TextEncoder_encode password)).

(** [loadUsers]: absent or empty text, and text [JSON.parse] rejects, give
    the empty array; any other text gives whatever value it denotes. *)
Definition loadUsers : M JSValue :=
  raw <- localStorage_getItem USERS_KEY ;;
  if not_item raw then ret (JArr [])
  else
    match JSON_parse (default "" raw) with
    | Some v => ret v
    | None => ret (JArr [])
    end.

Definition saveUsers (users : JSValue) : M unit :=
  localStorage_setItem USERS_KEY (JSON_stringify users).

(** [u => u.username.toLowerCase() === username.toLowerCase()]: a value
    without a string [username] makes the method call raise [TypeError]. *)
Definition same_username (username : string) (u : JSValue) : outcome bool :=
  match get_prop u "username" with
  | Throws e => Throws e
  | Returns (Some (JStr s)) => Returns (String.eqb (toLowerCase s) (toLowerCase username))
  | Returns _ => Throws TypeError
  end.

Definition findUserByUsername (username : string) : M JSValue :=
  users <- loadUsers ;;
  found <- lift (Array_find (same_username username) users) ;;
  ret (or_null found).

Definition createUser (now : Z) (username plainPassword role : string) : M JSValue :=
  if not_string username || not_string plainPassword
  then throw (Error "username and password required")
  else
    let hash := hashPassword plainPassword in
    users <- loadUsers ;;
    exists_ <- lift (Array_some (same_username username) users) ;;
    if (exists_ : bool) then throw (Error "User already exists")
    else
      let user :=
        user_object (mkUser ("u_" +:+ Number_toString now) username hash role) in
      users' <- lift (Array_push users user) ;;
      saveUsers users' ;;;
      ret user.

Definition ensureDefaultAdmin (now : Z) : M unit :=
  users <- loadUsers ;;
  len <- lift (get_length users) ;;
  if strict_eq_zero len
  then
    let defaultUser := "admin@example.com" in
    let defaultPass := "admin123" in
    try_catch
      (createUser now defaultUser defaultPass "admin" ;;; ret tt)
      (fun _ => ret tt)
  else ret tt.

Definition setSession (now : Z) (user : JSValue) (remember : bool) : M unit :=
  id <- lift (get_prop user "id") ;;
  username <- lift (get_prop user "username") ;;
  role <- lift (get_prop user "role") ;;
  let session :=
    JObj (defined_fields [("id", id); ("username", username); ("role", role);
                          ("createdAt", Some (JStr (toISOString now)))]) in
  sessionStorage_setItem SESSION_KEY (JSON_stringify session) ;;;
  if remember
  then
    name <- lift (ToString_opt username) ;;
    localStorage_setItem REMEMBER_KEY name
  else localStorage_removeItem REMEMBER_KEY.

Definition clearSession : M unit :=
  sessionStorage_removeItem SESSION_KEY.

(** [JSON.parse(text)] outside a [try]. *)
Definition parse_or_throw (text : option string) : M JSValue :=
  match text with
  | None => ret JNull
  | Some s =>
      match JSON_parse s with
      | Some v => ret v
      | None => throw SyntaxError
      end
  end.

Definition getSession (now : Z) : M JSValue :=
  raw <- sessionStorage_getItem SESSION_KEY ;;
  if not_item raw
  then
    remembered <- localStorage_getItem REMEMBER_KEY ;;
    if negb (not_item remembered)
    then
      user <- findUserByUsername (default "" remembered) ;;
      if truthy user
      then
        setSession now user true ;;;
        stored <- sessionStorage_getItem SESSION_KEY ;;
        parse_or_throw stored
      else ret JNull
    else ret JNull
  else
    match JSON_parse (default "" raw) with
    | Some v => ret v
    | None => ret JNull
    end.

Definition isAuthenticated (now : Z) : M bool :=
  s <- getSession now ;;
  ret (truthy s).

Definition authenticate (username plainPassword : string) : M JSValue :=
  user <- findUserByUsername username ;;
  if negb (truthy user)
  then ret (JObj [("success", JBool false); ("message", JStr "User not found")])
  else
    let hash := hashPassword plainPassword in
    stored <- lift (get_prop user "passwordHash") ;;
    if negb (strict_eq_string hash stored)
    then ret (JObj [("success", JBool false); ("message", JStr "Invalid credentials")])
    else ret (JObj [("success", JBool true); ("user", user)]).

(** [window.tiaAuth.login] and [logout] (without the navigation).  In
    [login], [r] is the object [authenticate] returned; a property it lacks
    reads as [undefined], which is falsy. *)
Definition login (now : Z) (username password : string) (remember : bool) : M JSValue :=
  r <- authenticate username password ;;
  success <- lift (get_prop r "success") ;;
  (if from_option truthy false success
   then
     user <- lift (get_prop r "user") ;;
     setSession now (default JNull user) remember
   else ret tt) ;;;
  ret r.

Definition logout (forget : bool) : M unit :=
  clearSession ;;;
  if forget then localStorage_removeItem REMEMBER_KEY else ret tt.

End Auth.

(** ** Typed views used by the statements *)

(** [findByUsername] of the specification on a typed directory: the first
    record whose name equals [name] after lower-casing both. *)
Definition findByUsername {P : Platform} (recs : list UserRecord) (name : string)
  : option UserRecord :=
  List.find (fun r => String.eqb (toLowerCase (user_username r)) (toLowerCase name)) recs.

(** The result objects of [authenticate]. *)
Definition failure (message : string) : JSValue :=
  JObj [("success", JBool false); ("message", JStr message)].

Definition success (user : JSValue) : JSValue :=
  JObj [("success", JBool true); ("user", user)].

(** The session object [setSession] serialises for a typed user. *)
Definition session_object {P : Platform} (r : UserRecord) (now : Z) : JSValue :=
  JObj [("id", JStr (user_id r));
        ("username", JStr (user_username r));
        ("role", JStr (user_role r));
        ("createdAt", JStr (toISOString now))].

(** The record [createUser] builds. *)
Definition new_user {P : Platform} (now : Z) (username plainPassword role : string)
  : UserRecord :=
  mkUser ("u_" +:+ Number_toString now) username (hashPassword plainPassword) role.

(** The value [loadUsers] returns in a world. *)
Definition stored_users {P : Platform} (w : World) : JSValue :=
  match fst (loadUsers w) with
  | Returns v => v
  | Throws _ => JArr []
  end.

(** The store holds exactly the typed directory [recs]. *)
Definition directory_is {P : Platform} (w : World) (recs : list UserRecord) : Prop :=
  stored_users w = JArr (List.map user_object recs).

(** The calls a page can make through [window.tiaAuth], and the world each
    leaves behind. *)
Inductive call : Type :=
| CallEnsureDefaultAdmin (now : Z)
| CallCreateUser (now : Z) (username password role : string)
| CallFindUserByUsername (username : string)
| CallLogin (now : Z) (username password : string) (remember : bool)
| CallLogout (forget : bool)
| CallIsAuthenticated (now : Z)
| CallGetSession (now : Z).

Definition run {P : Platform} (c : call) (w : World) : World :=
  match c with
  | CallEnsureDefaultAdmin now => snd (ensureDefaultAdmin now w)
  | CallCreateUser now u p r => snd (createUser now u p r w)
  | CallFindUserByUsername u => snd (findUserByUsername u w)
  | CallLogin now u p remember => snd (login now u p remember w)
  | CallLogout forget => snd (logout forget w)
  | CallIsAuthenticated now => snd (isAuthenticated now w)
  | CallGetSession now => snd (getSession now w)
  end.

(** Worlds reached from one whose directory is empty. *)
Inductive reachable {P : Platform} : World -> Prop :=
| reachable_init (w : World) : stored_users w = JArr [] -> reachable w
| reachable_step (w : World) (c : call) : reachable w -> reachable (run c w).

(** No two records of a directory have usernames that are equal after
    lower-casing. *)
Definition usernames_unique {P : Platform} (recs : list UserRecord) : Prop :=
  forall (i j : nat) (ri rj : UserRecord),
    recs !! i = Some ri -> recs !! j = Some rj ->
    toLowerCase (user_username ri) = toLowerCase (user_username rj) -> i = j.

(** The store holds a typed directory with unique usernames. *)
Definition unique_directory {P : Platform} (w : World) : Prop :=
  exists recs, directory_is w recs /\ usernames_unique recs.

(** A directory as [createUser] builds it: usernames unique up to letter
    case, none of them empty. *)
Definition well_formed {P : Platform} (recs : list UserRecord) : Prop :=
  usernames_unique recs /\ Forall (fun r => user_username r <> "") recs.

(** A value that is a sequence of user records. *)
Definition is_user_sequence (v : JSValue) : Prop :=
  exists recs, v = JArr (List.map user_object recs).

(** A property [Q] of directories that survives appending a record with a
    non-empty username that matched no record (every call keeps such a
    property), and the worlds whose directory has the property. *)
Definition appendable {P : Platform} (Q : list UserRecord -> Prop) : Prop :=
  forall recs r,
    Q recs -> user_username r <> "" -> findByUsername recs (user_username r) = None ->
    Q (recs ++ [r])%list.

Definition directory_with {P : Platform} (Q : list UserRecord -> Prop) (w : World) : Prop :=
  exists recs, directory_is w recs /\ Q recs.

(** A function of the program that leaves the users key alone. *)
Definition keeps_users {A : Type} (m : M A) : Prop :=
  forall w, localStorage (snd (m w)) !! USERS_KEY = localStorage w !! USERS_KEY.

(** ** Decimal printing *)

Lemma to_int_nonnil (n : Z) :
  match Z.to_int n with Pos d | Neg d => d <> Nil end.
Proof.
  destruct n as [|p|p]; cbn [Z.to_int].
  - discriminate.
  - apply DecimalPos.Unsigned.to_uint_nonnil.
  - apply DecimalPos.Unsigned.to_uint_nonnil.
Qed.

Lemma Number_toString_inj (a b : Z) : Number_toString a = Number_toString b -> a = b.
Proof.
  unfold Number_toString. intros H.
  assert (Hparse : forall n, NilZero.int_of_string (NilZero.string_of_int (Z.to_int n))
                             = Some (Z.to_int n)).
  { intros n. pose proof (to_int_nonnil n) as Hn.
    apply NilZero.isi; destruct (Z.to_int n); congruence. }
  pose proof (Hparse a) as Ha. rewrite H, Hparse in Ha.
  apply DecimalZ.to_int_inj. congruence.
Qed.

(** ** A reference platform

    An executable [Platform]: the compact JSON texts [JSON.stringify]
    writes for values made of [null], booleans, integers, strings without
    control characters, arrays and objects (the reader takes no white space,
    fractions or exponents, and does not mind leading zeros); ASCII case
    mapping; SHA-256; ISO dates.  It shows the laws of [Platform] can be met
    and runs the program on concrete storage contents. *)
Module Ref.

Definition dquote : ascii := "034".
Definition backslash : ascii := "092".

Fixpoint escape (s : string) : string :=
  match s with
  | "" => ""
  | String c s' =>
      if Ascii.eqb c dquote || Ascii.eqb c backslash
      then String backslash (String c (escape s'))
      else String c (escape s')
  end.

Definition quote (s : string) : string :=
  String dquote (escape s +:+ String dquote "").

(** The text of a value. *)
Fixpoint print (v : JSValue) : string :=
  match v with
  | JNull => "null"
  | JBool true => "true"
  | JBool false => "false"
  | JNum n => Number_toString n
  | JStr s => quote s
  | JArr [] => "[]"
  | JArr (x :: l) =>
      "[" +:+ print x +:+
      (fix more (l : list JSValue) : string :=
         match l with
         | [] => "]"
         | y :: l' => "," +:+ print y +:+ more l'
         end) l
  | JObj [] => "{}"
  | JObj ((k, x) :: fs) =>
      "{" +:+ quote k +:+ ":" +:+ print x +:+
      (fix more (fs : list (string * JSValue)) : string :=
         match fs with
         | [] => "}"
         | (k', y) :: fs' => "," +:+ quote k' +:+ ":" +:+ print y +:+ more fs'
         end) fs
  end.

(** Reading: the rest of a string literal after its opening quote. *)
Fixpoint read_string (s : string) : option (string * string) :=
  match s with
  | "" => None
  | String c s' =>
      if Ascii.eqb c dquote then Some ("", s')
      else if Ascii.eqb c backslash then
        match s' with
        | String c' s'' =>
            if Ascii.eqb c' dquote || Ascii.eqb c' backslash
            then
              match read_string s'' with
              | Some (r, rest) => Some (String c' r, rest)
              | None => None
              end
            else None
        | "" => None
        end
      else
        match read_string s' with
        | Some (r, rest) => Some (String c r, rest)
        | None => None
        end
  end.

Definition digit_of (c : ascii) : option (uint -> uint) :=
  if Ascii.eqb c "0" then Some D0 else
  if Ascii.eqb c "1" then Some D1 else
  if Ascii.eqb c "2" then Some D2 else
  if Ascii.eqb c "3" then Some D3 else
  if Ascii.eqb c "4" then Some D4 else
  if Ascii.eqb c "5" then Some D5 else
  if Ascii.eqb c "6" then Some D6 else
  if Ascii.eqb c "7" then Some D7 else
  if Ascii.eqb c "8" then Some D8 else
  if Ascii.eqb c "9" then Some D9 else None.

Fixpoint read_uint (s : string) : uint * string :=
  match s with
  | "" => (Nil, "")
  | String c s' =>
      match digit_of c with
      | Some d => let (u, rest) := read_uint s' in (d u, rest)
      | None => (Nil, s)
      end
  end.

Definition read_number (s : string) : option (JSValue * string) :=
  match s with
  | "" => None
  | String c s' =>
      if Ascii.eqb c "-" then
        match read_uint s' with
        | (Nil, _) => None
        | (d, rest) => Some (JNum (Z.of_int (Neg d)), rest)
        end
      else
        match read_uint s with
        | (Nil, _) => None
        | (d, rest) => Some (JNum (Z.of_int (Pos d)), rest)
        end
  end.

Fixpoint strip_prefix (p s : string) : option string :=
  match p, s with
  | "", _ => Some s
  | String a p', String b s' => if Ascii.eqb a b then strip_prefix p' s' else None
  | String _ _, "" => None
  end.

Definition keyword (kw : string) (v : JSValue) (s : string) : option (JSValue * string) :=
  match strip_prefix kw s with
  | Some rest => Some (v, rest)
  | None => None
  end.

(** A member [ "key":value ] of an object, given the reader of values. *)
Definition read_member (rv : string -> option (JSValue * string)) (s : string)
  : option ((string * JSValue) * string) :=
  match s with
  | String c s' =>
      if Ascii.eqb c dquote then
        match read_string s' with
        | Some (k, String c' s'') =>
            if Ascii.eqb c' ":" then
              match rv s'' with
              | Some (v, rest) => Some ((k, v), rest)
              | None => None
              end
            else None
        | _ => None
        end
      else None
  | "" => None
  end.

Fixpoint read_value (fuel : nat) (s : string) : option (JSValue * string) :=
  match fuel with
  | O => None
  | S fuel' =>
      match s with
      | "" => None
      | String c s' =>
          if Ascii.eqb c "n" then keyword "null" JNull s
          else if Ascii.eqb c "t" then keyword "true" (JBool true) s
          else if Ascii.eqb c "f" then keyword "false" (JBool false) s
          else if Ascii.eqb c dquote then
            match read_string s' with
            | Some (r, rest) => Some (JStr r, rest)
            | None => None
            end
          else if Ascii.eqb c "[" then
            match strip_prefix "]" s' with
            | Some rest => Some (JArr [], rest)
            | None =>
                match read_value fuel' s' with
                | Some (x, s1) =>
                    match read_items fuel' s1 with
                    | Some (l, rest) => Some (JArr (x :: l), rest)
                    | None => None
                    end
                | None => None
                end
            end
          else if Ascii.eqb c "{" then
            match strip_prefix "}" s' with
            | Some rest => Some (JObj [], rest)
            | None =>
                match read_member (read_value fuel') s' with
                | Some (m, s1) =>
                    match read_members fuel' s1 with
                    | Some (fs, rest) => Some (JObj (m :: fs), rest)
                    | None => None
                    end
                | None => None
                end
            end
          else read_number s
      end
  end
with read_items (fuel : nat) (s : string) : option (list JSValue * string) :=
  match fuel with
  | O => None
  | S fuel' =>
      match s with
      | "" => None
      | String c s' =>
          if Ascii.eqb c "]" then Some ([], s')
          else if Ascii.eqb c "," then
            match read_value fuel' s' with
            | Some (x, s1) =>
                match read_items fuel' s1 with
                | Some (l, rest) => Some (x :: l, rest)
                | None => None
                end
            | None => None
            end
          else None
      end
  end
with read_members (fuel : nat) (s : string) : option (list (string * JSValue) * string) :=
  match fuel with
  | O => None
  | S fuel' =>
      match s with
      | "" => None
      | String c s' =>
          if Ascii.eqb c "}" then Some ([], s')
          else if Ascii.eqb c "," then
            match read_member (read_value fuel') s' with
            | Some (m, s1) =>
                match read_members fuel' s1 with
                | Some (fs, rest) => Some (m :: fs, rest)
                | None => None
                end
            | None => None
            end
          else None
      end
  end.

(** The whole text must be one value. *)
Definition parse (s : string) : option JSValue :=
  match read_value (S (String.length s)) s with
  | Some (v, "") => Some v
  | _ => None
  end.

Definition lower_ascii (c : ascii) : ascii :=
  let n := N_of_ascii c in
  if ((65 <=? n) && (n <=? 90))%N then ascii_of_N (n + 32) else c.

Definition upper_ascii (c : ascii) : ascii :=
  let n := N_of_ascii c in
  if ((97 <=? n) && (n <=? 122))%N then ascii_of_N (n - 32) else c.

Fixpoint map_string (f : ascii -> ascii) (s : string) : string :=
  match s with
  | "" => ""
  | String c s' => String (f c) (map_string f s')
  end.

(** [String.prototype.toUpperCase], which the program never calls, on the
    characters the examples use: the ASCII letters, and U+00DF (the sharp
    s, the bytes 195 159 in UTF-8), whose upper-case form is the two
    letters [SS].  Other characters outside ASCII are left as they are. *)
Definition is_sharp_s (c d : ascii) : bool :=
  ((N_of_ascii c =? 195) && (N_of_ascii d =? 159))%N.

Fixpoint toUpperCase (s : string) : string :=
  match s with
  | "" => ""
  | String c s' =>
      match s' with
      | "" => String (upper_ascii c) ""
      | String d s'' =>
          if is_sharp_s c d then String "S" (String "S" (toUpperCase s''))
          else String (upper_ascii c) (toUpperCase s')
      end
  end.

(** Strings of ASCII characters only. *)
Fixpoint all_ascii (s : string) : bool :=
  match s with
  | "" => true
  | String c s' => (N_of_ascii c <? 128)%N && all_ascii s'
  end.

(** The tails the printer writes after the first element of an array and
    the first member of an object. *)
Fixpoint items_tail (l : list JSValue) : string :=
  match l with
  | [] => "]"
  | y :: l' => "," +:+ print y +:+ items_tail l'
  end.

Fixpoint members_tail (fs : list (string * JSValue)) : string :=
  match fs with
  | [] => "}"
  | (k, y) :: fs' => "," +:+ quote k +:+ ":" +:+ print y +:+ members_tail fs'
  end.

(** What may follow a number: the end of the text or a character that is
    not a digit. *)
Definition delimited (rest : string) : Prop :=
  match rest with
  | "" => True
  | String c _ => digit_of c = None
  end.

(** A text that does not start with a closing bracket. *)
Definition opens (s : string) : Prop :=
  match s with
  | "" => False
  | String c _ => Ascii.eqb c "]" = false
  end.

#[local] Arguments String.append !s1 s2 /.

Lemma append_assoc (a b c : string) : (a +:+ b) +:+ c = a +:+ (b +:+ c).
Proof. induction a as [|x a IH]; simpl; [reflexivity | now rewrite IH]. Qed.

Lemma append_empty_r (a : string) : a +:+ "" = a.
Proof. induction a as [|x a IH]; simpl; [reflexivity | now rewrite IH]. Qed.

Lemma length_append (a b : string) :
  String.length (a +:+ b) = (String.length a + String.length b)%nat.
Proof. induction a as [|x a IH]; simpl; [reflexivity | now rewrite IH]. Qed.

Lemma print_array (x : JSValue) (l : list JSValue) :
  print (JArr (x :: l)) = "[" +:+ print x +:+ items_tail l.
Proof. reflexivity. Qed.

Lemma print_object (k : string) (x : JSValue) (fs : list (string * JSValue)) :
  print (JObj ((k, x) :: fs)) = "{" +:+ quote k +:+ ":" +:+ print x +:+ members_tail fs.
Proof. reflexivity. Qed.

Lemma JSValue_nested_ind (Q : JSValue -> Prop) :
  Q JNull -> (forall b, Q (JBool b)) -> (forall n, Q (JNum n)) -> (forall s, Q (JStr s)) ->
  (forall l, Forall Q l -> Q (JArr l)) ->
  (forall fs, Forall (fun kv => Q (snd kv)) fs -> Q (JObj fs)) ->
  forall v, Q v.
Proof.
  intros Hnull Hbool Hnum Hstr Harr Hobj.
  fix IH 1. intros [ | b | n | s | l | fs ].
  - exact Hnull.
  - apply Hbool.
  - apply Hnum.
  - apply Hstr.
  - apply Harr. induction l as [|x l IHl]; constructor; [apply IH | exact IHl].
  - apply Hobj. induction fs as [|[k x] fs IHfs]; constructor; [apply IH | exact IHfs].
Qed.

Lemma read_string_escape (s rest : string) :
  read_string (escape s +:+ String dquote rest) = Some (s, rest).
Proof.
  induction s as [|c s IH]; [reflexivity|].
  cbn [escape].
  destruct (Ascii.eqb c dquote) eqn:Eq, (Ascii.eqb c backslash) eqn:Eb;
    cbn [orb append read_string];
    rewrite ?Eq, ?Eb; cbn [orb];
    try (change (Ascii.eqb backslash dquote) with false;
         change (Ascii.eqb backslash backslash) with true; cbn iota;
         rewrite ?Eq, ?Eb; cbn [orb]);
    now rewrite IH.
Qed.

Lemma read_uint_print (d : uint) (rest : string) :
  delimited rest -> read_uint (NilEmpty.string_of_uint d +:+ rest) = (d, rest).
Proof.
  intros Hrest.
  induction d as [ |d IH|d IH|d IH|d IH|d IH|d IH|d IH|d IH|d IH|d IH];
    cbn [NilEmpty.string_of_uint append read_uint];
    try (now rewrite IH).
  destruct rest as [|c rest]; [reflexivity|].
  cbn [read_uint]. cbn in Hrest. now rewrite Hrest.
Qed.

Lemma read_number_print (n : Z) (rest : string) :
  delimited rest -> read_number (Number_toString n +:+ rest) = Some (JNum n, rest).
Proof.
  intros Hrest. unfold Number_toString.
  pose proof (DecimalZ.of_to n) as Hn. pose proof (to_int_nonnil n) as Hd.
  destruct (Z.to_int n) as [d|d]; rewrite <- Hn.
  - destruct d; try congruence;
      cbn [NilZero.string_of_int NilZero.string_of_uint NilEmpty.string_of_uint
           append read_number read_uint];
      now rewrite (read_uint_print _ _ Hrest).
  - cbn [NilZero.string_of_int append read_number].
    change (Ascii.eqb "-" "-") with true. cbn iota.
    replace (NilZero.string_of_uint d) with (NilEmpty.string_of_uint d)
      by (destruct d; congruence || reflexivity).
    rewrite (read_uint_print _ _ Hrest). destruct d; congruence || reflexivity.
Qed.

Lemma Number_toString_opens (n : Z) (rest : string) : opens (Number_toString n +:+ rest).
Proof.
  unfold Number_toString. pose proof (to_int_nonnil n) as Hd.
  destruct (Z.to_int n) as [d|d]; [|reflexivity].
  destruct d; try congruence; reflexivity.
Qed.

Lemma print_opens (v : JSValue) (rest : string) : opens (print v +:+ rest).
Proof.
  destruct v as [ | [] | n | s | [|x l] | [|[k x] fs] ];
    try reflexivity; apply Number_toString_opens.
Qed.

Lemma opens_strip (s : string) : opens s -> strip_prefix "]" s = None.
Proof.
  destruct s as [|c s]; [contradiction|]. cbn [opens strip_prefix]. intros H.
  rewrite Ascii.eqb_sym, H. reflexivity.
Qed.

(** [reads_back v]: reading the text of [v], with enough fuel and whatever
    follows it, gives [v] back and stops where the text of [v] ends. *)
Definition reads_back (v : JSValue) : Prop :=
  forall fuel rest,
    (String.length (print v) < fuel)%nat -> delimited rest ->
    read_value fuel (print v +:+ rest) = Some (v, rest).

Lemma items_tail_delimited (l : list JSValue) (rest : string) :
  delimited (items_tail l +:+ rest).
Proof. destruct l; reflexivity. Qed.

Lemma members_tail_delimited (fs : list (string * JSValue)) (rest : string) :
  delimited (members_tail fs +:+ rest).
Proof. destruct fs as [|[k y] fs]; reflexivity. Qed.

Lemma read_items_tail (l : list JSValue) :
  Forall reads_back l ->
  forall fuel rest,
    (String.length (items_tail l) <= fuel)%nat ->
    read_items fuel (items_tail l +:+ rest) = Some (l, rest).
Proof.
  induction 1 as [|y l Hy _ IH]; intros fuel rest Hf.
  - destruct fuel as [|fuel]; [cbn in Hf; lia | reflexivity].
  - cbn [items_tail] in *. rewrite !length_append in Hf.
    destruct fuel as [|fuel]; [cbn in Hf; lia|].
    rewrite !append_assoc.
    change ("," +:+ print y +:+ items_tail l +:+ rest)
      with (String "," (print y +:+ items_tail l +:+ rest)).
    cbn [read_items].
    change (Ascii.eqb "," "]") with false. change (Ascii.eqb "," ",") with true.
    cbn iota.
    assert (1 <= String.length (items_tail l))%nat by (destruct l; cbn; lia).
    rewrite (Hy fuel); [| cbn in Hf; lia | apply items_tail_delimited].
    rewrite IH; [reflexivity | cbn in Hf; lia].
Qed.

Lemma read_member_print (k : string) (x : JSValue) (fuel : nat) (tail : string) :
  reads_back x -> (String.length (print x) < fuel)%nat -> delimited tail ->
  read_member (read_value fuel) (quote k +:+ ":" +:+ print x +:+ tail)
  = Some ((k, x), tail).
Proof.
  intros Hx Hf Ht. unfold quote.
  change (String dquote (escape k +:+ String dquote "") +:+ ":" +:+ print x +:+ tail)
    with (String dquote ((escape k +:+ String dquote "") +:+ ":" +:+ print x +:+ tail)).
  rewrite append_assoc.
  change (String dquote "" +:+ ":" +:+ print x +:+ tail)
    with (String dquote (String ":" (print x +:+ tail))).
  cbn [read_member]. rewrite Ascii.eqb_refl, read_string_escape, Ascii.eqb_refl.
  now rewrite (Hx fuel tail Hf Ht).
Qed.

Lemma read_members_tail (fs : list (string * JSValue)) :
  Forall (fun kv => reads_back (snd kv)) fs ->
  forall fuel rest,
    (String.length (members_tail fs) <= fuel)%nat ->
    read_members fuel (members_tail fs +:+ rest) = Some (fs, rest).
Proof.
  induction 1 as [|[k y] fs Hy _ IH]; intros fuel rest Hf.
  - destruct fuel as [|fuel]; [cbn in Hf; lia | reflexivity].
  - cbn [members_tail snd] in *. rewrite !length_append in Hf.
    destruct fuel as [|fuel]; [cbn in Hf; lia|].
    rewrite !append_assoc.
    change ("," +:+ quote k +:+ ":" +:+ print y +:+ members_tail fs +:+ rest)
      with (String "," (quote k +:+ ":" +:+ print y +:+ members_tail fs +:+ rest)).
    cbn [read_members].
    change (Ascii.eqb "," "}") with false. change (Ascii.eqb "," ",") with true.
    cbn iota.
    assert (1 <= String.length (members_tail fs))%nat
      by (destruct fs as [|[] ?]; cbn; lia).
    rewrite read_member_print;
      [| exact Hy | cbn in Hf; lia | apply members_tail_delimited].
    rewrite IH; [reflexivity | cbn in Hf; lia].
Qed.

Lemma read_value_Number (fuel : nat) (n : Z) (rest : string) :
  read_value (S fuel) (Number_toString n +:+ rest)
  = read_number (Number_toString n +:+ rest).
Proof.
  unfold Number_toString. pose proof (to_int_nonnil n) as Hd.
  destruct (Z.to_int n) as [d|d]; [|reflexivity].
  destruct d; try congruence; reflexivity.
Qed.

Lemma print_reads_back (v : JSValue) : reads_back v.
Proof.
  induction v as [ | b | n | s | l IHl | fs IHfs ] using JSValue_nested_ind;
    intros fuel rest Hf Hrest; (destruct fuel as [|fuel]; [lia|]).
  - reflexivity.
  - destruct b; reflexivity.
  - cbn [print]. rewrite read_value_Number. now apply read_number_print.
  - cbn [print]. unfold quote.
    change (String dquote (escape s +:+ String dquote "") +:+ rest)
      with (String dquote ((escape s +:+ String dquote "") +:+ rest)).
    rewrite append_assoc.
    change (String dquote "" +:+ rest) with (String dquote rest).
    cbn [read_value].
    change (Ascii.eqb dquote "n") with false. change (Ascii.eqb dquote "t") with false.
    change (Ascii.eqb dquote "f") with false. cbn iota.
    rewrite Ascii.eqb_refl. now rewrite read_string_escape.
  - destruct l as [|x l]; [reflexivity|].
    rewrite print_array in *. rewrite !append_assoc. rewrite !length_append in Hf.
    change ("[" +:+ print x +:+ items_tail l +:+ rest)
      with (String "[" (print x +:+ items_tail l +:+ rest)).
    cbn [read_value].
    change (Ascii.eqb "[" "n") with false. change (Ascii.eqb "[" "t") with false.
    change (Ascii.eqb "[" "f") with false. change (Ascii.eqb "[" dquote) with false.
    change (Ascii.eqb "[" "[") with true. cbn iota.
    rewrite (opens_strip _ (print_opens x _)).
    inversion IHl as [|? ? Hx Hl]; subst.
    assert (1 <= String.length (items_tail l))%nat by (destruct l; cbn; lia).
    rewrite (Hx fuel); [| cbn in Hf; lia | apply items_tail_delimited].
    rewrite (read_items_tail l Hl); [reflexivity | cbn in Hf; lia].
  - destruct fs as [|[k x] fs]; [reflexivity|].
    rewrite print_object in *. rewrite !append_assoc. rewrite !length_append in Hf.
    change ("{" +:+ quote k +:+ ":" +:+ print x +:+ members_tail fs +:+ rest)
      with (String "{" (quote k +:+ ":" +:+ print x +:+ members_tail fs +:+ rest)).
    cbn [read_value].
    change (Ascii.eqb "{" "n") with false. change (Ascii.eqb "{" "t") with false.
    change (Ascii.eqb "{" "f") with false. change (Ascii.eqb "{" dquote) with false.
    change (Ascii.eqb "{" "[") with false. change (Ascii.eqb "{" "{") with true.
    cbn iota.
    replace (strip_prefix "}" (quote k +:+ ":" +:+ print x +:+ members_tail fs +:+ rest))
      with (@None string) by reflexivity.
    inversion IHfs as [|? ? Hx Hfs]; subst. cbn [snd] in Hx.
    assert (1 <= String.length (members_tail fs))%nat
      by (destruct fs as [|[] ?]; cbn; lia).
    rewrite read_member_print;
      [| exact Hx | cbn in Hf; lia | apply members_tail_delimited].
    rewrite (read_members_tail fs Hfs); [reflexivity | cbn in Hf; lia].
Qed.

(** The first law of [Platform] for this codec. *)
Lemma parse_print (v : JSValue) : parse (print v) = Some v.
Proof.
  unfold parse.
  rewrite <- (append_empty_r (print v)) at 2.
  rewrite (print_reads_back v (S (String.length (print v))) ""); [reflexivity | lia | exact I].
Qed.

Lemma lower_upper_ascii (c : ascii) : lower_ascii (upper_ascii c) = lower_ascii c.
Proof. destruct c as [[] [] [] [] [] [] [] []]; reflexivity. Qed.

Lemma lower_upper (s : string) :
  map_string lower_ascii (map_string upper_ascii s) = map_string lower_ascii s.
Proof.
  induction s as [|c s IH]; [reflexivity|].
  cbn [map_string]. now rewrite lower_upper_ascii, IH.
Qed.

(** On ASCII names lower-casing undoes upper-casing. *)
Lemma lower_toUpperCase (s : string) :
  all_ascii s = true ->
  map_string lower_ascii (toUpperCase s) = map_string lower_ascii s.
Proof.
  induction s as [|c s IH]; [reflexivity|].
  cbn [all_ascii]. intros [Hc Hs]%andb_prop. specialize (IH Hs).
  destruct s as [|d s'].
  - cbn [toUpperCase map_string]. now rewrite lower_upper_ascii.
  - assert (Hsharp : is_sharp_s c d = false).
    { unfold is_sharp_s. apply N.ltb_lt in Hc.
      destruct (N.eqb_spec (N_of_ascii c) 195) as [E|_]; [lia | reflexivity]. }
    change (toUpperCase (String c (String d s')))
      with (if is_sharp_s c d then String "S" (String "S" (toUpperCase s'))
            else String (upper_ascii c) (toUpperCase (String d s'))).
    rewrite Hsharp. cbn [map_string]. rewrite lower_upper_ascii.
    f_equal. exact IH.
Qed.

End Ref.

(** *** SHA-256 (FIPS 180-4) on byte lists, for the reference platform *)
Module SHA256.
Local Open Scope N_scope.

Definition mask32 : N := 0xffffffff.
Definition add32 (a b : N) : N := N.land (a + b) mask32.
Definition rotr (n x : N) : N :=
  N.lor (N.shiftr x n) (N.land (N.shiftl x (32 - n)) mask32).
Definition xor3 (a b c : N) : N := N.lxor (N.lxor a b) c.
Definition Ch (x y z : N) : N := N.lxor (N.land x y) (N.land (N.lxor x mask32) z).
Definition Maj (x y z : N) : N := xor3 (N.land x y) (N.land x z) (N.land y z).
Definition Sigma0 (x : N) : N := xor3 (rotr 2 x) (rotr 13 x) (rotr 22 x).
Definition Sigma1 (x : N) : N := xor3 (rotr 6 x) (rotr 11 x) (rotr 25 x).
Definition sigma0 (x : N) : N := xor3 (rotr 7 x) (rotr 18 x) (N.shiftr x 3).
Definition sigma1 (x : N) : N := xor3 (rotr 17 x) (rotr 19 x) (N.shiftr x 10).

(** The round constants and the initial hash value: the first 32 bits of
    the fractional parts of the cube roots of the first 64 primes, and of the
    square roots of the first 8. *)
Definition is_prime (n : N) : bool :=
  List.forallb (fun d => negb (n mod N.of_nat d =? 0)) (List.seq 2 (N.to_nat n - 2)).

Definition primes : list N :=
  List.filter is_prime (List.map N.of_nat (List.seq 2 310)).

(** The integer cube root, one bit at a time from bit [k] down. *)
Fixpoint cube_root (k : nat) (x acc : N) : N :=
  let try := acc + N.shiftl 1 (N.of_nat k) in
  let acc' := if try * try * try <=? x then try else acc in
  match k with
  | O => acc'
  | S k' => cube_root k' x acc'
  end.

Definition K : list N :=
  Eval vm_compute in
    List.map (fun p => N.land (cube_root 40 (p * 2 ^ 96) 0) mask32) primes.

Definition H0 : list N :=
  Eval vm_compute in
    List.map (fun p => N.land (N.sqrt (p * 2 ^ 64)) mask32) (List.firstn 8 primes).

(** Big-endian bytes of a number, [k] of them. *)
Fixpoint be_bytes (k : nat) (x : N) : list N :=
  match k with
  | O => []
  | S k' => N.land (N.shiftr x (8 * N.of_nat k')) 0xff :: be_bytes k' x
  end.

Definition pad (msg : list N) : list N :=
  let len := N.of_nat (List.length msg) in
  let zeros := N.to_nat ((119 - len mod 64) mod 64) in
  msg ++ [0x80] ++ List.repeat 0 zeros ++ be_bytes 8 (8 * len).

Fixpoint be_words (k : nat) (bytes : list N) : list N :=
  match k, bytes with
  | S k', b0 :: b1 :: b2 :: b3 :: rest =>
      (N.shiftl b0 24 + N.shiftl b1 16 + N.shiftl b2 8 + b3) :: be_words k' rest
  | _, _ => []
  end.

(** The message schedule, newest word first. *)
Fixpoint schedule (k : nat) (rev_w : list N) : list N :=
  match k with
  | O => rev_w
  | S k' =>
      let w := fun i => List.nth i rev_w 0 in
      schedule k' (add32 (add32 (sigma1 (w 1%nat)) (w 6%nat))
                         (add32 (sigma0 (w 14%nat)) (w 15%nat)) :: rev_w)
  end.

Definition round (st : list N) (kw : N * N) : list N :=
  match st with
  | [a; b; c; d; e; f; g; h] =>
      let t1 := add32 (add32 (add32 h (Sigma1 e)) (add32 (Ch e f g) (fst kw))) (snd kw) in
      let t2 := add32 (Sigma0 a) (Maj a b c) in
      [add32 t1 t2; a; b; c; add32 d t1; e; f; g]
  | _ => st
  end.

Definition zip_with {A B C} (f : A -> B -> C) : list A -> list B -> list C :=
  fix go l1 l2 :=
    match l1, l2 with
    | x :: l1', y :: l2' => f x y :: go l1' l2'
    | _, _ => []
    end.

Definition compress (st : list N) (block : list N) : list N :=
  let w := List.rev (schedule 48 (List.rev (be_words 16 block))) in
  zip_with add32 st (List.fold_left round (zip_with pair K w) st).

Fixpoint blocks (k : nat) (st : list N) (bytes : list N) : list N :=
  match k with
  | O => st
  | S k' => blocks k' (compress st (List.firstn 64 bytes)) (List.skipn 64 bytes)
  end.

Definition byte_of_N (n : N) : Byte.byte := default Byte.x00 (Byte.of_N n).

Definition digest (msg : list Byte.byte) : list Byte.byte :=
  let bytes := pad (List.map Byte.to_N msg) in
  let st := blocks (List.length bytes / 64) H0 bytes in
  List.map byte_of_N (List.concat (List.map (be_bytes 4) st)).

End SHA256.

(** *** [Date.prototype.toISOString] for years 0000 to 9999 *)
Module ISODate.

Definition pad_left (width : nat) (n : Z) : string :=
  let s := Number_toString n in
  String.concat "" (List.repeat "0" (width - String.length s)) +:+ s.

Definition toISOString (now : Z) : string :=
  let days := now / 86400000 in
  let ms := now mod 86400000 in
  let z := days + 719468 in
  let era := z / 146097 in
  let doe := z - era * 146097 in
  let yoe := (doe - doe / 1460 + doe / 36524 - doe / 146096) / 365 in
  let doy := doe - (365 * yoe + yoe / 4 - yoe / 100) in
  let mp := (5 * doy + 2) / 153 in
  let d := doy - (153 * mp + 2) / 5 + 1 in
  let m := if mp <? 10 then mp + 3 else mp - 9 in
  let y := yoe + era * 400 + (if m <=? 2 then 1 else 0) in
  pad_left 4 y +:+ "-" +:+ pad_left 2 m +:+ "-" +:+ pad_left 2 d +:+ "T" +:+
  pad_left 2 (ms / 3600000) +:+ ":" +:+ pad_left 2 (ms / 60000 mod 60) +:+ ":" +:+
  pad_left 2 (ms / 1000 mod 60) +:+ "." +:+ pad_left 3 (ms mod 1000) +:+ "Z".

End ISODate.

Definition RefPlatform : Platform := {|
  TextEncoder_encode := list_byte_of_string;
  SHA256_digest := SHA256.digest;
  toLowerCase := Ref.map_string Ref.lower_ascii;
  toISOString := ISODate.toISOString;
  JSON_parse := Ref.parse;
  JSON_stringify := Ref.print;
  JSON_parse_stringify := Ref.parse_print;
  JSON_parse_empty := eq_refl
|}.

(** ** Properties *)

Section Properties.
Context {P : Platform}.

Ltac unfold_M :=
  unfold bind, ret, throw, lift, try_catch,
    localStorage_getItem, localStorage_setItem, localStorage_removeItem,
    sessionStorage_getItem, sessionStorage_setItem, sessionStorage_removeItem.

Lemma JSON_stringify_nonempty (v : JSValue) : JSON_stringify v <> "".
Proof.
  intros H. pose proof (JSON_parse_stringify v) as Hv.
  rewrite H, JSON_parse_empty in Hv. discriminate.
Qed.

Lemma not_string_false (s : string) : s <> "" -> not_string s = false.
Proof. intros H. unfold not_string. now apply String.eqb_neq. Qed.

Lemma loadUsers_eq (w : World) : loadUsers w = (Returns (stored_users w), w).
Proof.
  unfold stored_users, loadUsers. unfold_M.
  destruct (not_item (localStorage w !! USERS_KEY)); [reflexivity|].
  destruct (JSON_parse _); reflexivity.
Qed.

Lemma stored_users_lookup (w : World) :
  stored_users w =
  match localStorage w !! USERS_KEY with
  | None => JArr []
  | Some raw =>
      if String.eqb raw "" then JArr []
      else match JSON_parse raw with Some v => v | None => JArr [] end
  end.
Proof.
  unfold stored_users, loadUsers. unfold_M.
  destruct (localStorage w !! USERS_KEY) as [raw|]; cbn; [|reflexivity].
  unfold not_string. destruct (String.eqb raw ""); [reflexivity|].
  destruct (JSON_parse raw); reflexivity.
Qed.

Lemma stored_users_ext (w w' : World) :
  localStorage w' !! USERS_KEY = localStorage w !! USERS_KEY ->
  stored_users w' = stored_users w.
Proof. intros H. now rewrite !stored_users_lookup, H. Qed.

Lemma stored_users_saveUsers (users : JSValue) (w : World) :
  stored_users (snd (saveUsers users w)) = users.
Proof.
  rewrite stored_users_lookup. unfold saveUsers. unfold_M. cbn.
  rewrite lookup_insert_eq.
  rewrite (proj2 (String.eqb_neq _ _) (JSON_stringify_nonempty users)).
  now rewrite JSON_parse_stringify.
Qed.

(** *** The loops over a directory *)

Lemma same_username_user (name : string) (r : UserRecord) :
  same_username name (user_object r)
  = Returns (String.eqb (toLowerCase (user_username r)) (toLowerCase name)).
Proof. reflexivity. Qed.

Lemma same_username_variant (u v : string) (x : JSValue) :
  toLowerCase v = toLowerCase u -> same_username v x = same_username u x.
Proof. intros H. unfold same_username. now rewrite H. Qed.

Lemma find_loop_directory (name : string) (recs : list UserRecord) :
  find_loop (same_username name) (List.map user_object recs)
  = Returns (option_map user_object (findByUsername recs name)).
Proof.
  induction recs as [|r recs IH]; [reflexivity|].
  cbn [List.map find_loop]. rewrite same_username_user.
  unfold findByUsername in *. cbn [List.find].
  destruct (String.eqb _ _); [reflexivity | exact IH].
Qed.

Lemma some_loop_directory (name : string) (recs : list UserRecord) :
  some_loop (same_username name) (List.map user_object recs)
  = Returns (match findByUsername recs name with Some _ => true | None => false end).
Proof.
  induction recs as [|r recs IH]; [reflexivity|].
  cbn [List.map some_loop]. rewrite same_username_user.
  unfold findByUsername in *. cbn [List.find].
  destruct (String.eqb _ _); [reflexivity | exact IH].
Qed.

Lemma some_loop_variant (u v : string) (l : list JSValue) :
  toLowerCase v = toLowerCase u ->
  some_loop (same_username v) l = some_loop (same_username u) l.
Proof.
  intros H. induction l as [|x l IH]; [reflexivity|].
  cbn [some_loop]. now rewrite (same_username_variant u v x H), IH.
Qed.

Lemma find_loop_variant (u v : string) (l : list JSValue) :
  toLowerCase v = toLowerCase u ->
  find_loop (same_username v) l = find_loop (same_username u) l.
Proof.
  intros H. induction l as [|x l IH]; [reflexivity|].
  cbn [find_loop]. now rewrite (same_username_variant u v x H), IH.
Qed.

(** Past elements that [some] rejected, [find] and [some] reach what was
    pushed after them. *)
Lemma find_loop_after (p : JSValue -> outcome bool) (l : list JSValue) (x : JSValue) :
  some_loop p l = Returns false -> find_loop p (l ++ [x]) = find_loop p [x].
Proof.
  induction l as [|y l IH]; [reflexivity|].
  cbn [some_loop app find_loop].
  destruct (p y) as [[]|]; try discriminate. exact IH.
Qed.

(** What [find] returns is an object with a string [username] that
    matches. *)
Lemma find_loop_Some (name : string) (l : list JSValue) (u : JSValue) :
  find_loop (same_username name) l = Returns (Some u) ->
  exists fs s, u = JObj fs /\ get_field "username" fs = Some (JStr s)
               /\ toLowerCase s = toLowerCase name.
Proof.
  induction l as [|y l IH]; [discriminate|].
  cbn [find_loop]. destruct (same_username name y) as [[]|] eqn:Hy; try discriminate.
  - intros [= <-]. unfold same_username in Hy.
    destruct y as [ | | | | | fs]; cbn [get_prop] in Hy; try discriminate.
    destruct (get_field "username" fs) as [[ | | |s| | ]|] eqn:Hf; try discriminate.
    exists fs, s. repeat split; [exact Hf|].
    apply String.eqb_eq. congruence.
  - exact IH.
Qed.

Lemma some_loop_after (p : JSValue -> outcome bool) (l : list JSValue) (x : JSValue) :
  some_loop p l = Returns false -> some_loop p (l ++ [x]) = some_loop p [x].
Proof.
  induction l as [|y l IH]; [reflexivity|].
  cbn [some_loop app].
  destruct (p y) as [[]|]; try discriminate. exact IH.
Qed.

(** *** The functions, one equation each *)

Lemma findUserByUsername_eq (username : string) (w : World) :
  findUserByUsername username w =
  (match Array_find (same_username username) (stored_users w) with
   | Returns found => Returns (or_null found)
   | Throws e => Throws e
   end, w).
Proof.
  unfold findUserByUsername. unfold bind at 1. rewrite loadUsers_eq.
  unfold_M. destruct (Array_find _ _); reflexivity.
Qed.

Lemma createUser_eq (now : Z) (username plainPassword role : string) (w : World) :
  createUser now username plainPassword role w =
  if not_string username || not_string plainPassword
  then (Throws (Error "username and password required"), w)
  else
    match Array_some (same_username username) (stored_users w) with
    | Throws e => (Throws e, w)
    | Returns true => (Throws (Error "User already exists"), w)
    | Returns false =>
        let user := user_object (new_user now username plainPassword role) in
        match Array_push (stored_users w) user with
        | Throws e => (Throws e, w)
        | Returns users' => (Returns user, snd (saveUsers users' w))
        end
    end.
Proof.
  unfold createUser.
  destruct (not_string username || not_string plainPassword); [reflexivity|].
  unfold bind at 1. rewrite loadUsers_eq. unfold_M.
  destruct (Array_some _ _) as [[]|]; reflexivity.
Qed.

Lemma ensureDefaultAdmin_eq (now : Z) (w : World) :
  ensureDefaultAdmin now w =
  match get_length (stored_users w) with
  | Throws e => (Throws e, w)
  | Returns len =>
      if strict_eq_zero len
      then (Returns tt, snd (createUser now "admin@example.com" "admin123" "admin" w))
      else (Returns tt, w)
  end.
Proof.
  unfold ensureDefaultAdmin. unfold bind at 1. rewrite loadUsers_eq.
  unfold_M. destruct (get_length _) as [len|]; [|reflexivity].
  destruct (strict_eq_zero len); [|reflexivity].
  cbn zeta. destruct (createUser _ _ _ _ w) as [[]]; reflexivity.
Qed.

Lemma setSession_user (now : Z) (r : UserRecord) (remember : bool) (w : World) :
  setSession now (user_object r) remember w =
  (Returns tt,
   mkWorld
     (if remember then <[REMEMBER_KEY := user_username r]> (localStorage w)
      else delete REMEMBER_KEY (localStorage w))
     (<[SESSION_KEY := JSON_stringify (session_object r now)]> (sessionStorage w))).
Proof. destruct remember; reflexivity. Qed.

Lemma findByUsername_None (recs : list UserRecord) (name : string) :
  findByUsername recs name = None <->
  Forall (fun r => toLowerCase (user_username r) <> toLowerCase name) recs.
Proof.
  unfold findByUsername. induction recs as [|r recs IH]; cbn [List.find].
  - split; [constructor | reflexivity].
  - destruct (String.eqb_spec (toLowerCase (user_username r)) (toLowerCase name)) as [E|E].
    + split; [discriminate | intros H; inversion H; contradiction].
    + rewrite IH. split; [now constructor | intros H; now inversion H].
Qed.

Lemma findByUsername_Some (recs : list UserRecord) (name : string) (r : UserRecord) :
  findByUsername recs name = Some r ->
  In r recs /\ toLowerCase (user_username r) = toLowerCase name.
Proof.
  unfold findByUsername. intros H. apply List.find_some in H.
  destruct H as [Hin Heq]. split; [exact Hin | now apply String.eqb_eq].
Qed.

(** What a successful [createUser] did. *)
Lemma createUser_Returns (now : Z) (username plainPassword role : string)
    (w w' : World) (user : JSValue) :
  createUser now username plainPassword role w = (Returns user, w') ->
  exists l,
    username <> "" /\ plainPassword <> "" /\
    stored_users w = JArr l /\
    some_loop (same_username username) l = Returns false /\
    user = user_object (new_user now username plainPassword role) /\
    stored_users w' = JArr (l ++ [user]).
Proof.
  rewrite createUser_eq. intros H.
  destruct (not_string username) eqn:Hu; [discriminate|].
  destruct (not_string plainPassword) eqn:Hp; [discriminate|].
  cbn [orb] in H.
  destruct (stored_users w) as [ | | | | l | ]; try discriminate.
  cbn [Array_some Array_push] in H.
  destruct (some_loop (same_username username) l) as [[]|] eqn:Hsome; try discriminate.
  cbn zeta in H. exists l.
  assert (user = user_object (new_user now username plainPassword role)) as ->
    by congruence.
  assert (w' = snd (saveUsers
                      (JArr (l ++ [user_object (new_user now username plainPassword role)]))
                      w)) as -> by congruence.
  repeat split; try reflexivity; try assumption.
  - now apply String.eqb_neq.
  - now apply String.eqb_neq.
  - apply stored_users_saveUsers.
Qed.

(** On a typed directory [createUser] succeeds for non-empty arguments and
    a username that matches no record: it returns the new record and the
    directory is the old one with the new record appended. *)
Lemma createUser_succeeds (now : Z) (username plainPassword role : string)
    (w : World) (recs : list UserRecord) :
  directory_is w recs -> username <> "" -> plainPassword <> "" ->
  findByUsername recs username = None ->
  exists w',
    createUser now username plainPassword role w
    = (Returns (user_object (new_user now username plainPassword role)), w')
    /\ directory_is w' (recs ++ [new_user now username plainPassword role])%list.
Proof.
  intros Hdir Hu Hp Hnone. unfold directory_is in Hdir.
  rewrite createUser_eq, (not_string_false _ Hu), (not_string_false _ Hp), Hdir.
  cbn [orb Array_some Array_push]. rewrite some_loop_directory, Hnone. cbn zeta.
  eexists. split; [reflexivity|].
  unfold directory_is. now rewrite stored_users_saveUsers, List.map_app.
Qed.

(** C1: on a store holding the directory [recs], [authenticate] fails with
    the message 'User not found' when no record has the username up to
    letter case; otherwise it compares the hash of the plaintext with the
    digest stored in the matching record, failing with 'Invalid credentials'
    on a mismatch and returning [{success: true, user}] with the whole stored
    record on a match.  Storage is not touched. *)
Theorem authenticate_verdict (w : World) (recs : list UserRecord)
    (username plainPassword : string) :
  directory_is w recs ->
  authenticate username plainPassword w =
  (Returns
     match findByUsername recs username with
     | None => failure "User not found"
     | Some r =>
         if String.eqb (hashPassword plainPassword) (user_passwordHash r)
         then success (user_object r)
         else failure "Invalid credentials"
     end, w)
  /\ (findByUsername recs username = None <->
      Forall (fun r => toLowerCase (user_username r) <> toLowerCase username) recs)
  /\ (forall r, findByUsername recs username = Some r ->
      In r recs /\ toLowerCase (user_username r) = toLowerCase username).
Proof.
  intros Hdir. split; [|split].
  - unfold authenticate. unfold bind at 1. rewrite findUserByUsername_eq.
    rewrite Hdir. cbn [Array_find]. rewrite find_loop_directory.
    destruct (findByUsername recs username) as [r|]; [|reflexivity].
    cbn. destruct (String.eqb _ _); reflexivity.
  - apply findByUsername_None.
  - apply findByUsername_Some.
Qed.

(** C2 (amended): [createUser] throws 'username and password required'
    whenever the username or the plaintext is empty, whatever the store
    holds; with both non-empty it throws 'User already exists' whenever the
    directory holds a record with the same username up to letter case, in
    particular for any case variant of a username just created.  In each of
    these failures storage is left as it was. *)
Theorem createUser_failures (now : Z) (username plainPassword role : string) (w : World) :
  (username = "" \/ plainPassword = "" ->
   createUser now username plainPassword role w
   = (Throws (Error "username and password required"), w))
  /\ (username <> "" -> plainPassword <> "" ->
      forall recs r, directory_is w recs -> In r recs ->
        toLowerCase (user_username r) = toLowerCase username ->
        createUser now username plainPassword role w
        = (Throws (Error "User already exists"), w))
  /\ (username <> "" -> plainPassword <> "" ->
      forall now0 username0 plainPassword0 role0 w0 user,
        createUser now0 username0 plainPassword0 role0 w0 = (Returns user, w) ->
        toLowerCase username = toLowerCase username0 ->
        createUser now username plainPassword role w
        = (Throws (Error "User already exists"), w)).
Proof.
  split; [|split].
  - intros H. rewrite createUser_eq.
    destruct H as [-> | ->]; [reflexivity|].
    now rewrite orb_true_r.
  - intros Hu Hp recs r Hdir Hin Heq. rewrite createUser_eq.
    rewrite (not_string_false _ Hu), (not_string_false _ Hp). cbn [orb].
    rewrite Hdir. cbn [Array_some]. rewrite some_loop_directory.
    destruct (findByUsername recs username) eqn:Hfind; [reflexivity|].
    apply findByUsername_None in Hfind. rewrite List.Forall_forall in Hfind.
    now destruct (Hfind r Hin).
  - intros Hu Hp now0 username0 plainPassword0 role0 w0 user Hcreate Heq.
    destruct (createUser_Returns _ _ _ _ _ _ _ Hcreate)
      as (l & _ & _ & _ & Hsome & -> & Hw).
    rewrite createUser_eq.
    rewrite (not_string_false _ Hu), (not_string_false _ Hp). cbn [orb].
    rewrite Hw. cbn [Array_some].
    rewrite (some_loop_variant username0 username _ Heq).
    rewrite (some_loop_after _ _ _ Hsome). cbn [some_loop].
    rewrite same_username_user. unfold new_user; cbn [user_username].
    now rewrite String.eqb_refl.
Qed.

(** C3 (amended): [loadUsers] never throws and leaves storage as it is.  It
    returns the empty array when the users key is absent, holds the empty
    string or holds text that [JSON.parse] rejects; any other text gives the
    value it denotes, array of users or not.  What [saveUsers] wrote is read
    back unchanged. *)
Theorem loadUsers_returns (w : World) (users : JSValue) :
  loadUsers w =
  (Returns
     match localStorage w !! USERS_KEY with
     | None => JArr []
     | Some raw =>
         if String.eqb raw "" then JArr []
         else match JSON_parse raw with Some v => v | None => JArr [] end
     end, w)
  /\ loadUsers (snd (saveUsers users w)) = (Returns users, snd (saveUsers users w)).
Proof.
  split.
  - now rewrite loadUsers_eq, stored_users_lookup.
  - now rewrite loadUsers_eq, stored_users_saveUsers.
Qed.

(** C7 (amended): after a successful [createUser(u, p, r)],
    [findUserByUsername] applied to [u] returns the record just created:
    its username is [u] as given and its passwordHash is the hash of [p].
    Applied to another name it returns that record exactly when the name
    has the same lower-case form as [u]; so the lookup by the upper-case
    form of [u] finds the record exactly when lower-casing the upper-case
    form gives the lower-case form of [u].  [toUpperCase] is the
    platform's; the program does not call it. *)
Theorem createUser_then_find (toUpperCase : string -> string) (now : Z)
    (username plainPassword role : string) (w w' : World) (user : JSValue) :
  createUser now username plainPassword role w = (Returns user, w') ->
  findUserByUsername username w' = (Returns user, w')
  /\ (forall variant,
        findUserByUsername variant w' = (Returns user, w')
        <-> toLowerCase variant = toLowerCase username)
  /\ (findUserByUsername (toUpperCase username) w' = (Returns user, w')
      <-> toLowerCase (toUpperCase username) = toLowerCase username)
  /\ get_prop user "username" = Returns (Some (JStr username))
  /\ get_prop user "passwordHash" = Returns (Some (JStr (hashPassword plainPassword))).
Proof.
  intros Hcreate.
  destruct (createUser_Returns _ _ _ _ _ _ _ Hcreate)
    as (l & _ & _ & _ & Hsome & -> & Hw).
  assert (Hfind : forall v,
            findUserByUsername v w'
            = (Returns (user_object (new_user now username plainPassword role)), w')
            <-> toLowerCase v = toLowerCase username).
  { intros v. rewrite findUserByUsername_eq, Hw. cbn [Array_find]. split.
    - destruct (find_loop (same_username v) _) as [[x|]|e] eqn:Hx; try discriminate.
      destruct (find_loop_Some _ _ _ Hx) as (fs & s & -> & Hf & Hs).
      change (or_null (Some (JObj fs))) with (JObj fs).
      intros [= ->]. cbn in Hf. injection Hf as <-. now symmetry.
    - intros Hv. rewrite (find_loop_variant username v _ Hv).
      rewrite (find_loop_after _ _ _ Hsome). cbn [find_loop].
      rewrite same_username_user. unfold new_user at 1; cbn [user_username].
      now rewrite String.eqb_refl. }
  repeat split; try (now apply Hfind).
Qed.

(** C8 (amended): a successful [createUser] gives the new record the id
    [u_] followed by the clock reading in decimal; the records of two
    successful calls have the same id exactly when the calls read the same
    clock value, so calls made at different readings get different ids. *)
Theorem createUser_ids (now1 now2 : Z) (u1 p1 r1 u2 p2 r2 : string)
    (w1 w1' w2 w2' : World) (x1 x2 : JSValue) :
  createUser now1 u1 p1 r1 w1 = (Returns x1, w1') ->
  createUser now2 u2 p2 r2 w2 = (Returns x2, w2') ->
  get_prop x1 "id" = Returns (Some (JStr ("u_" +:+ Number_toString now1)))
  /\ get_prop x2 "id" = Returns (Some (JStr ("u_" +:+ Number_toString now2)))
  /\ (get_prop x1 "id" = get_prop x2 "id" <-> now1 = now2).
Proof.
  intros H1 H2.
  destruct (createUser_Returns _ _ _ _ _ _ _ H1) as (l1 & _ & _ & _ & _ & -> & _).
  destruct (createUser_Returns _ _ _ _ _ _ _ H2) as (l2 & _ & _ & _ & _ & -> & _).
  repeat split.
  - cbn. intros H. injection H as H. now apply Number_toString_inj.
  - now intros ->.
Qed.

Lemma directory_length (recs : list UserRecord) :
  get_length (JArr (List.map user_object recs))
  = Returns (Some (JNum (Z.of_nat (List.length recs)))).
Proof. cbn. now rewrite List.length_map. Qed.

(** C9: on an empty directory [ensureDefaultAdmin] creates the one default
    admin account; on a directory that holds a record it does nothing.  So
    a second call after the first changes nothing, and the directory then
    holds exactly one user. *)
Theorem ensureDefaultAdmin_idempotent (now1 now2 : Z) (w : World) :
  (stored_users w = JArr [] ->
   exists w1,
     ensureDefaultAdmin now1 w = (Returns tt, w1)
     /\ directory_is w1 [new_user now1 "admin@example.com" "admin123" "admin"]
     /\ ensureDefaultAdmin now2 w1 = (Returns tt, w1))
  /\ (forall x l, stored_users w = JArr (x :: l) ->
      ensureDefaultAdmin now1 w = (Returns tt, w)).
Proof.
  split.
  - intros Hempty.
    exists (snd (createUser now1 "admin@example.com" "admin123" "admin" w)).
    assert (Hdir : directory_is
              (snd (createUser now1 "admin@example.com" "admin123" "admin" w))
              [new_user now1 "admin@example.com" "admin123" "admin"]).
    { rewrite createUser_eq, Hempty.
      change (not_string "admin@example.com" || not_string "admin123") with false.
      cbn [Array_some some_loop Array_push app snd]. unfold directory_is.
      now rewrite stored_users_saveUsers. }
    repeat split.
    + now rewrite ensureDefaultAdmin_eq, Hempty.
    + exact Hdir.
    + rewrite ensureDefaultAdmin_eq, Hdir. reflexivity.
  - intros x l Hl. rewrite ensureDefaultAdmin_eq, Hl. cbn [get_length strict_eq_zero].
    reflexivity.
Qed.

(** *** What leaves the users key alone *)

Lemma keeps_ret {A} (a : A) : keeps_users (ret a).
Proof. intros w. reflexivity. Qed.

Lemma keeps_throw {A} (e : JSError) : keeps_users (@throw A e).
Proof. intros w. reflexivity. Qed.

Lemma keeps_lift {A} (o : outcome A) : keeps_users (lift o).
Proof. intros w. reflexivity. Qed.

Lemma keeps_bind {A B} (m : M A) (k : A -> M B) :
  keeps_users m -> (forall a, keeps_users (k a)) -> keeps_users (bind m k).
Proof.
  intros Hm Hk w. unfold bind. specialize (Hm w).
  destruct (m w) as [[a|e] w1]; cbn [snd] in *; [|exact Hm].
  now rewrite (Hk a w1).
Qed.

Lemma keeps_getItem (k : string) :
  keeps_users (localStorage_getItem k) /\ keeps_users (sessionStorage_getItem k).
Proof. split; intros w; reflexivity. Qed.

Lemma keeps_session_setItem (k v : string) : keeps_users (sessionStorage_setItem k v).
Proof. intros w; reflexivity. Qed.

Lemma keeps_session_removeItem (k : string) : keeps_users (sessionStorage_removeItem k).
Proof. intros w; reflexivity. Qed.

Lemma keeps_remember_setItem (v : string) :
  keeps_users (localStorage_setItem REMEMBER_KEY v).
Proof. intros w; cbn. now apply lookup_insert_ne. Qed.

Lemma keeps_remember_removeItem : keeps_users (localStorage_removeItem REMEMBER_KEY).
Proof. intros w; cbn. now apply lookup_delete_ne. Qed.

Lemma keeps_loadUsers : keeps_users loadUsers.
Proof. intros w. now rewrite loadUsers_eq. Qed.

Ltac keeps :=
  repeat first
    [ apply keeps_ret | apply keeps_throw | apply keeps_lift
    | apply keeps_loadUsers
    | apply (proj1 (keeps_getItem _)) | apply (proj2 (keeps_getItem _))
    | apply keeps_session_setItem | apply keeps_session_removeItem
    | apply keeps_remember_setItem | apply keeps_remember_removeItem
    | apply keeps_bind; [|intros ?]
    | progress cbv zeta
    | match goal with
      | |- keeps_users (if ?b then _ else _) => destruct b
      | |- keeps_users (match ?x with _ => _ end) => destruct x
      end ].

Lemma keeps_findUserByUsername (username : string) :
  keeps_users (findUserByUsername username).
Proof. unfold findUserByUsername. keeps. Qed.

Lemma keeps_setSession (now : Z) (user : JSValue) (remember : bool) :
  keeps_users (setSession now user remember).
Proof. unfold setSession. keeps. Qed.

Lemma keeps_getSession (now : Z) : keeps_users (getSession now).
Proof.
  unfold getSession, parse_or_throw.
  keeps; try apply keeps_findUserByUsername; try apply keeps_setSession; keeps.
Qed.

Lemma keeps_authenticate (username plainPassword : string) :
  keeps_users (authenticate username plainPassword).
Proof. unfold authenticate. keeps; try apply keeps_findUserByUsername; keeps. Qed.

Lemma keeps_login (now : Z) (username password : string) (remember : bool) :
  keeps_users (login now username password remember).
Proof.
  unfold login.
  keeps; try apply keeps_authenticate; try apply keeps_setSession; keeps.
Qed.

Lemma keeps_logout (forget : bool) : keeps_users (logout forget).
Proof. unfold logout, clearSession. keeps. Qed.

Lemma keeps_isAuthenticated (now : Z) : keeps_users (isAuthenticated now).
Proof.
  unfold isAuthenticated.
  apply keeps_bind; [apply keeps_getSession | intros s; apply keeps_ret].
Qed.

(** *** The directory invariant *)

Lemma usernames_unique_NoDup (recs : list UserRecord) :
  usernames_unique recs <->
  NoDup (List.map (fun r => toLowerCase (user_username r)) recs).
Proof.
  rewrite NoDup_alt. unfold usernames_unique. split.
  - intros H i j x Hi Hj.
    rewrite list_lookup_fmap in Hi, Hj.
    destruct (recs !! i) as [ri|] eqn:Ei; [|discriminate].
    destruct (recs !! j) as [rj|] eqn:Ej; [|discriminate].
    cbn in Hi, Hj. apply (H i j ri rj Ei Ej). congruence.
  - intros H i j ri rj Hi Hj Heq.
    apply (H i j (toLowerCase (user_username ri)));
      rewrite list_lookup_fmap; [now rewrite Hi | now rewrite Hj, Heq].
Qed.

(** On a typed directory [createUser] either changes nothing or appends the
    new record, whose username then matched no record. *)
Lemma createUser_directory (now : Z) (username plainPassword role : string)
    (w : World) (recs : list UserRecord) :
  directory_is w recs ->
  snd (createUser now username plainPassword role w) = w
  \/ (username <> "" /\ findByUsername recs username = None
      /\ directory_is (snd (createUser now username plainPassword role w))
           (recs ++ [new_user now username plainPassword role])).
Proof.
  intros Hdir. rewrite createUser_eq.
  destruct (not_string username) eqn:Hu; [now left|].
  destruct (not_string plainPassword); [now left|]. cbn [orb].
  rewrite Hdir. cbn [Array_some Array_push]. rewrite some_loop_directory.
  destruct (findByUsername recs username) eqn:Hfind; [now left|].
  right. cbn zeta. unfold directory_is in Hdir. rewrite Hdir.
  cbn [Array_push snd]. repeat split.
  - now apply String.eqb_neq.
  - unfold directory_is. rewrite stored_users_saveUsers.
    now rewrite List.map_app.
Qed.

Lemma createUser_keeps (Q : list UserRecord -> Prop)
    (now : Z) (username plainPassword role : string) (w : World) :
  appendable Q -> directory_with Q w ->
  directory_with Q (snd (createUser now username plainPassword role w)).
Proof.
  intros HQ (recs & Hdir & Hrecs).
  destruct (createUser_directory now username plainPassword role w recs Hdir)
    as [-> | (Hu & Hnone & Hdir')].
  - now exists recs.
  - exists (recs ++ [new_user now username plainPassword role])%list.
    split; [exact Hdir'|]. now apply HQ.
Qed.

Lemma keeps_directory {A} (Q : list UserRecord -> Prop) (m : M A) (w : World) :
  keeps_users m -> directory_with Q w -> directory_with Q (snd (m w)).
Proof.
  intros Hm (recs & Hdir & Hrecs). exists recs. split; [|exact Hrecs].
  unfold directory_is in *. now rewrite (stored_users_ext w _ (Hm w)).
Qed.

Lemma run_keeps (Q : list UserRecord -> Prop) (c : call) (w : World) :
  appendable Q -> directory_with Q w -> directory_with Q (run c w).
Proof.
  intros HQ Hw. destruct c; cbn [run].
  - rewrite ensureDefaultAdmin_eq.
    destruct (get_length (stored_users w)) as [len|]; [|exact Hw].
    destruct (strict_eq_zero len); [|exact Hw].
    now apply createUser_keeps.
  - now apply createUser_keeps.
  - now apply keeps_directory; [apply keeps_findUserByUsername|].
  - now apply keeps_directory; [apply keeps_login|].
  - now apply keeps_directory; [apply keeps_logout|].
  - now apply keeps_directory; [apply keeps_isAuthenticated|].
  - now apply keeps_directory; [apply keeps_getSession|].
Qed.

Lemma reachable_keeps (Q : list UserRecord -> Prop) (w : World) :
  appendable Q -> Q [] -> reachable w -> directory_with Q w.
Proof.
  intros HQ Hnil. induction 1 as [w Hempty | w c _ IH].
  - now exists [].
  - now apply run_keeps.
Qed.

Lemma usernames_unique_appendable : appendable usernames_unique.
Proof.
  intros recs r Huniq _ Hnone.
  apply usernames_unique_NoDup. rewrite List.map_app.
  apply NoDup_app. split; [now apply usernames_unique_NoDup|]. split.
  - intros x Hx Hx'. cbn in Hx'. apply list_elem_of_singleton in Hx'. subst x.
    apply list_elem_of_fmap in Hx. destruct Hx as (r' & Hr & Hin).
    apply findByUsername_None in Hnone. rewrite List.Forall_forall in Hnone.
    apply list_elem_of_In in Hin. now apply (Hnone r' Hin).
  - cbn. apply NoDup_singleton.
Qed.

Lemma usernames_unique_nil : usernames_unique [].
Proof. intros i j ri rj Hi. now rewrite lookup_nil in Hi. Qed.

Lemma well_formed_appendable : appendable well_formed.
Proof.
  intros recs r [Huniq Hne] Hr Hnone. split.
  - now apply usernames_unique_appendable.
  - apply Forall_app. split; [exact Hne | now constructor].
Qed.

Lemma reachable_well_formed (w : World) :
  reachable w -> exists recs, directory_is w recs /\ well_formed recs.
Proof.
  apply (reachable_keeps well_formed); [apply well_formed_appendable|].
  split; [apply usernames_unique_nil | constructor].
Qed.

(** C6: every world reached from an empty directory by calls to the
    functions of [window.tiaAuth] ([createUser] and [ensureDefaultAdmin]
    among them) holds a directory in which no two records have usernames
    equal up to letter case; and each such call, made on any store whose
    directory has that property, leaves a directory that has it. *)
Theorem reachable_unique_usernames (w : World) :
  (reachable w -> unique_directory w)
  /\ (unique_directory w -> forall c, unique_directory (run c w)).
Proof.
  split.
  - apply (reachable_keeps usernames_unique);
      [apply usernames_unique_appendable | apply usernames_unique_nil].
  - intros Hw c. now apply (run_keeps usernames_unique);
      [apply usernames_unique_appendable|].
Qed.

(** *** Sessions *)

Lemma findByUsername_own (recs : list UserRecord) (u : UserRecord) :
  usernames_unique recs -> In u recs ->
  findByUsername recs (user_username u) = Some u.
Proof.
  rewrite usernames_unique_NoDup. unfold findByUsername.
  induction recs as [|a recs IH]; intros Hnd Hin; [contradiction|].
  cbn [List.map] in Hnd. apply NoDup_cons in Hnd. destruct Hnd as [Ha Hnd].
  cbn [List.find].
  destruct (String.eqb_spec (toLowerCase (user_username a))
                            (toLowerCase (user_username u))) as [E|E].
  - destruct Hin as [-> | Hin]; [reflexivity|].
    exfalso. apply Ha. rewrite E.
    apply list_elem_of_fmap. exists u. split; [reflexivity|].
    now apply list_elem_of_In.
  - destruct Hin as [-> | Hin]; [contradiction|]. now apply IH.
Qed.

(** Rehydration: no session stored, a remembered name that finds a record. *)
Lemma getSession_rehydrates (now : Z) (w : World) (recs : list UserRecord)
    (r : UserRecord) (name : string) :
  sessionStorage w !! SESSION_KEY = None ->
  localStorage w !! REMEMBER_KEY = Some name -> name <> "" ->
  directory_is w recs -> findByUsername recs name = Some r ->
  getSession now w =
  (Returns (session_object r now),
   mkWorld (<[REMEMBER_KEY := user_username r]> (localStorage w))
           (<[SESSION_KEY := JSON_stringify (session_object r now)]> (sessionStorage w))).
Proof.
  intros Hs Hr Hname Hdir Hfind.
  unfold getSession. unfold bind at 1. unfold sessionStorage_getItem at 1.
  rewrite Hs. cbn [not_item].
  unfold bind at 1. unfold localStorage_getItem at 1.
  rewrite Hr. cbn [not_item default from_option id]. rewrite (not_string_false _ Hname). cbn [negb].
  unfold bind at 1. unfold directory_is in Hdir.
  rewrite findUserByUsername_eq, Hdir. cbn [Array_find].
  rewrite find_loop_directory, Hfind.
  cbn [option_map or_null].
  do 2 (change (truthy (user_object r)) with true; cbn iota).
  unfold bind at 1. rewrite setSession_user.
  unfold bind, sessionStorage_getItem. cbn [sessionStorage].
  rewrite lookup_insert_eq. unfold parse_or_throw.
  rewrite JSON_parse_stringify. reflexivity.
Qed.

(** C4: for a user [u] of a well-formed directory, [setSession(u, true)]
    followed by [clearSession()] leaves no session in [sessionStorage] and
    the remember pointer, which [clearSession] does not touch, at the
    username of [u]; [getSession()] then returns a new session object with
    the id, username and role of [u] and stores it in [sessionStorage]. *)
Theorem remember_rehydrates (t1 t2 : Z) (w : World) (recs : list UserRecord)
    (u : UserRecord) :
  directory_is w recs -> well_formed recs -> In u recs ->
  let w1 := snd (setSession t1 (user_object u) true w) in
  let w2 := snd (clearSession w1) in
  let w3 := snd (getSession t2 w2) in
  sessionStorage w2 !! SESSION_KEY = None
  /\ localStorage w2 = localStorage w1
  /\ localStorage w2 !! REMEMBER_KEY = Some (user_username u)
  /\ getSession t2 w2 = (Returns (session_object u t2), w3)
  /\ get_prop (session_object u t2) "username" = Returns (Some (JStr (user_username u)))
  /\ get_prop (session_object u t2) "role" = Returns (Some (JStr (user_role u)))
  /\ sessionStorage w3 !! SESSION_KEY = Some (JSON_stringify (session_object u t2))
  /\ localStorage w3 !! REMEMBER_KEY = Some (user_username u).
Proof.
  intros Hdir [Huniq Hne] Hin w1 w2 w3.
  assert (Hname : user_username u <> "").
  { rewrite List.Forall_forall in Hne. now apply Hne. }
  assert (Hs2 : sessionStorage w2 !! SESSION_KEY = None).
  { subst w2 w1. rewrite setSession_user. cbn. apply lookup_delete_eq. }
  assert (Hr2 : localStorage w2 !! REMEMBER_KEY = Some (user_username u)).
  { subst w2 w1. rewrite setSession_user. cbn. apply lookup_insert_eq. }
  assert (Hdir2 : directory_is w2 recs).
  { unfold directory_is in *. rewrite <- Hdir. apply stored_users_ext.
    subst w2 w1. rewrite setSession_user. cbn. now apply lookup_insert_ne. }
  pose proof (getSession_rehydrates t2 w2 recs u _ Hs2 Hr2 Hname Hdir2
                (findByUsername_own recs u Huniq Hin)) as Hget.
  repeat split; try assumption.
  - subst w3. now rewrite Hget.
  - subst w3. rewrite Hget. cbn. apply lookup_insert_eq.
  - subst w3. rewrite Hget. cbn. apply lookup_insert_eq.
Qed.

(** C5 (amended): with no session stored and a remember pointer whose
    username matches no record of the directory, [getSession()] returns
    [null] and leaves both storages as they were: the pointer stays. *)
Theorem getSession_stale_pointer (now : Z) (w : World) (recs : list UserRecord)
    (name : string) :
  sessionStorage w !! SESSION_KEY = None ->
  localStorage w !! REMEMBER_KEY = Some name ->
  directory_is w recs -> findByUsername recs name = None ->
  getSession now w = (Returns JNull, w)
  /\ localStorage (snd (getSession now w)) !! REMEMBER_KEY = Some name.
Proof.
  intros Hs Hr Hdir Hfind.
  assert (Hget : getSession now w = (Returns JNull, w)).
  { unfold getSession. unfold bind at 1. unfold sessionStorage_getItem at 1.
    rewrite Hs. cbn [not_item].
    unfold bind at 1. unfold localStorage_getItem at 1.
    rewrite Hr. cbn [not_item default from_option id].
    destruct (not_string name); [reflexivity|]. cbn [negb].
    unfold bind at 1. rewrite findUserByUsername_eq, Hdir. cbn [Array_find].
    now rewrite find_loop_directory, Hfind. }
  split; [exact Hget | now rewrite Hget].
Qed.

(** C10 (amended): when the session key holds a non-empty text that
    [JSON.parse] rejects, [getSession()] returns [null] whatever the
    remember pointer and the directory hold, both storages stay as they
    were, and [isAuthenticated()] returns [false]. *)
Theorem getSession_unparseable (now : Z) (w : World) (raw : string) :
  sessionStorage w !! SESSION_KEY = Some raw -> raw <> "" -> JSON_parse raw = None ->
  getSession now w = (Returns JNull, w)
  /\ isAuthenticated now w = (Returns false, w).
Proof.
  intros Hs Hraw Hparse.
  assert (Hget : getSession now w = (Returns JNull, w)).
  { unfold getSession. unfold bind at 1. unfold sessionStorage_getItem at 1.
    rewrite Hs. cbn [not_item default from_option id]. rewrite (not_string_false _ Hraw).
    now rewrite Hparse. }
  split; [exact Hget|].
  unfold isAuthenticated, bind. now rewrite Hget.
Qed.

End Properties.

(** ** The program run on the reference platform *)

Module Examples.

Definition empty_world : World := mkWorld ∅ ∅.

(** After [createUser('Bob', 's3cret', 'admin')] at clock reading 1700000000000. *)
Definition bob : UserRecord :=
  new_user (P := RefPlatform) 1700000000000 "Bob" "s3cret" "admin".

Definition world_bob : World :=
  snd (createUser (P := RefPlatform) 1700000000000 "Bob" "s3cret" "admin" empty_world).

(** The same store with a remember pointer to a name nobody has. *)
Definition world_ghost : World :=
  mkWorld (<[REMEMBER_KEY := "ghost"]> (localStorage world_bob)) ∅.

(** The same store with a remember pointer to Bob and the empty string under
    the session key. *)
Definition world_empty_session : World :=
  mkWorld (<[REMEMBER_KEY := "Bob"]> (localStorage world_bob)) {[ SESSION_KEY := "" ]}.

(** The same store with text that is not JSON under the session key. *)
Definition world_broken_session : World :=
  mkWorld (<[REMEMBER_KEY := "Bob"]> (localStorage world_bob)) {[ SESSION_KEY := "{oops" ]}.

(** The one-letter name U+00DF, the sharp s, in UTF-8. *)
Definition sharp_s : string :=
  String (ascii_of_N 195) (String (ascii_of_N 159) "").

Definition strauss : UserRecord :=
  new_user (P := RefPlatform) 1700000000002 sharp_s "pw" "viewer".

Definition world_strauss : World :=
  snd (createUser (P := RefPlatform) 1700000000002 sharp_s "pw" "viewer" empty_world).

(** A store whose users key holds the JSON text of a number. *)
Definition world_number : World := mkWorld {[ USERS_KEY := "42" ]} ∅.

(** Alice, created after Bob, one millisecond later. *)
Definition alice : UserRecord :=
  new_user (P := RefPlatform) 1700000000001 "alice" "pw" "viewer".

Definition world_bob_alice : World :=
  snd (createUser (P := RefPlatform) 1700000000001 "alice" "pw" "viewer" world_bob).

(** Ann and Ben, created within one millisecond. *)
Definition ann : UserRecord := new_user (P := RefPlatform) 5 "ann" "x" "admin".
Definition ben : UserRecord := new_user (P := RefPlatform) 5 "ben" "y" "admin".

Definition world_ann : World :=
  snd (createUser (P := RefPlatform) 5 "ann" "x" "admin" empty_world).

Definition world_ann_ben : World :=
  snd (createUser (P := RefPlatform) 5 "ben" "y" "admin" world_ann).

(** First run, a login with "remember me", and a registration. *)
Definition world_session : World :=
  run (P := RefPlatform) (CallCreateUser 3 "alice" "pw" "viewer")
    (run (P := RefPlatform) (CallLogin 2 "admin@example.com" "admin123" true)
       (run (P := RefPlatform) (CallEnsureDefaultAdmin 1) empty_world)).

End Examples.

Import Examples.

Example sha256_abc :
  bufToHex (SHA256.digest (list_byte_of_string "abc"))
  = "ba7816bf8f01cfea414140de5dae2223b00361a396177a9cb410ff61f20015ad".
Proof. vm_compute. reflexivity. Qed.

Example toISOString_2023 :
  ISODate.toISOString 1700000000123 = "2023-11-14T22:13:20.123Z".
Proof. vm_compute. reflexivity. Qed.

Example bob_id : user_id bob = "u_1700000000000".
Proof. vm_compute. reflexivity. Qed.

Lemma world_bob_directory : directory_is (P := RefPlatform) world_bob [bob].
Proof. vm_compute. reflexivity. Qed.

Lemma bob_well_formed : well_formed (P := RefPlatform) [bob].
Proof.
  split.
  - apply usernames_unique_NoDup. cbn [List.map]. apply NoDup_singleton.
  - repeat constructor. discriminate.
Qed.

(** [authenticate_verdict] at Bob's store: [BOB] with the right password
    logs in. *)
Lemma authenticate_verdict_witness :
  authenticate (P := RefPlatform) "BOB" "s3cret" world_bob
  = (Returns (success (user_object bob)), world_bob).
Proof.
  pose proof (proj1 (authenticate_verdict (P := RefPlatform) world_bob [bob]
                       "BOB" "s3cret" world_bob_directory)) as H.
  vm_compute in H. vm_compute. exact H.
Defined.

(** [createUser_failures] at Bob's store: a second [BOB], and an empty
    username. *)
Lemma createUser_failures_witness :
  createUser (P := RefPlatform) 1700000000001 "BOB" "other" "viewer" world_bob
  = (Throws (Error "User already exists"), world_bob)
  /\ createUser (P := RefPlatform) 1700000000001 "" "other" "viewer" world_bob
     = (Throws (Error "username and password required"), world_bob).
Proof.
  pose proof (createUser_failures (P := RefPlatform) 1700000000001 "BOB" "other" "viewer"
                world_bob) as (_ & Hdup & _).
  pose proof (createUser_failures (P := RefPlatform) 1700000000001 "" "other" "viewer"
                world_bob) as (Hinv & _).
  split.
  - apply (Hdup ltac:(discriminate) ltac:(discriminate) [bob] bob world_bob_directory).
    + now left.
    + vm_compute. reflexivity.
  - apply Hinv. now left.
Defined.

(** The claim of C2 read literally fails here: a record matching [BOB]
    exists, and [createUser] with an empty password fails with 'username and
    password required', not with 'User already exists'. *)
Lemma createUser_empty_password_wins :
  findUserByUsername (P := RefPlatform) "BOB" world_bob
  = (Returns (user_object bob), world_bob)
  /\ createUser (P := RefPlatform) 1700000000001 "BOB" "" "viewer" world_bob
     = (Throws (Error "username and password required"), world_bob).
Proof. split; vm_compute; reflexivity. Qed.

(** The claim of C3 fails here: the users key holds the text [42], and
    [loadUsers] returns the number 42, which is no sequence of records. *)
Lemma loadUsers_not_a_sequence :
  loadUsers (P := RefPlatform) world_number = (Returns (JNum 42), world_number)
  /\ ~ is_user_sequence (JNum 42).
Proof.
  split; [vm_compute; reflexivity|].
  intros [recs H]. discriminate.
Qed.

(** [remember_rehydrates] at Bob's store. *)
Lemma remember_rehydrates_witness :
  let w1 := snd (setSession (P := RefPlatform) 1700000001000 (user_object bob) true world_bob) in
  let w2 := snd (clearSession w1) in
  let w3 := snd (getSession (P := RefPlatform) 1700000002000 w2) in
  getSession (P := RefPlatform) 1700000002000 w2
  = (Returns (session_object (P := RefPlatform) bob 1700000002000), w3)
  /\ sessionStorage w3 !! SESSION_KEY
     = Some (JSON_stringify (Platform := RefPlatform) (session_object (P := RefPlatform) bob 1700000002000)).
Proof.
  pose proof (remember_rehydrates (P := RefPlatform) 1700000001000 1700000002000
                world_bob [bob] bob world_bob_directory bob_well_formed
                (or_introl eq_refl)) as H.
  cbv zeta in H. destruct H as (_ & _ & _ & Hget & _ & _ & Hstored & _).
  cbv zeta. split; [exact Hget | exact Hstored].
Defined.

(** [getSession_stale_pointer] at the store whose pointer names [ghost]. *)
Lemma getSession_stale_pointer_witness :
  getSession (P := RefPlatform) 1700000002000 world_ghost = (Returns JNull, world_ghost).
Proof.
  apply (getSession_stale_pointer (P := RefPlatform) 1700000002000 world_ghost [bob] "ghost").
  - reflexivity.
  - vm_compute. reflexivity.
  - vm_compute. reflexivity.
  - vm_compute. reflexivity.
Defined.

(** The claim of C5 fails here: no session is stored, the pointer names
    [ghost], no record has that name; [getSession] returns [null] and the
    pointer is still in [localStorage] afterwards. *)
Lemma getSession_keeps_stale_pointer :
  sessionStorage world_ghost !! SESSION_KEY = None
  /\ localStorage world_ghost !! REMEMBER_KEY = Some "ghost"
  /\ findUserByUsername (P := RefPlatform) "ghost" world_ghost = (Returns JNull, world_ghost)
  /\ fst (getSession (P := RefPlatform) 1700000002000 world_ghost) = Returns JNull
  /\ localStorage (snd (getSession (P := RefPlatform) 1700000002000 world_ghost))
       !! REMEMBER_KEY = Some "ghost".
Proof. repeat split; vm_compute; reflexivity. Qed.

(** [reachable_unique_usernames] after a first run, a login and a
    registration. *)
Lemma reachable_unique_usernames_witness :
  unique_directory (P := RefPlatform) world_session
  /\ unique_directory (P := RefPlatform)
       (run (P := RefPlatform) (CallCreateUser 4 "ALICE" "x" "admin") world_session).
Proof.
  assert (Hreach : reachable (P := RefPlatform) world_session).
  { do 3 apply reachable_step. apply reachable_init. vm_compute. reflexivity. }
  pose proof (reachable_unique_usernames (P := RefPlatform) world_session) as [H1 H2].
  split; [exact (H1 Hreach) | exact (H2 (H1 Hreach) _)].
Defined.

(** [createUser_then_find]: Bob is found under [BOB], the upper-case form
    of his name. *)
Lemma createUser_then_find_witness :
  findUserByUsername (P := RefPlatform) (Ref.toUpperCase "Bob") world_bob
  = (Returns (user_object bob), world_bob).
Proof.
  assert (Hcreate : createUser (P := RefPlatform) 1700000000000 "Bob" "s3cret" "admin"
                      empty_world = (Returns (user_object bob), world_bob))
    by (vm_compute; reflexivity).
  destruct (createUser_then_find (P := RefPlatform) Ref.toUpperCase 1700000000000
              "Bob" "s3cret" "admin" empty_world world_bob (user_object bob) Hcreate)
    as (_ & _ & [_ Hupper] & _).
  apply Hupper. exact (Ref.lower_toUpperCase "Bob" eq_refl).
Defined.

(** The original C7 fails for the name [sharp_s]: its upper-case form is
    [SS], whose lower-case form [ss] is not the lower-case form of the
    name, so the lookup by the upper-case form returns [null]. *)
Lemma createUser_sharp_s_upper_case_not_found :
  createUser (P := RefPlatform) 1700000000002 sharp_s "pw" "viewer" empty_world
  = (Returns (user_object strauss), world_strauss)
  /\ findUserByUsername (P := RefPlatform) sharp_s world_strauss
     = (Returns (user_object strauss), world_strauss)
  /\ Ref.toUpperCase sharp_s = "SS"
  /\ findUserByUsername (P := RefPlatform) (Ref.toUpperCase sharp_s) world_strauss
     = (Returns JNull, world_strauss).
Proof. repeat split; vm_compute; reflexivity. Qed.

(** [createUser_ids]: Bob and Alice, created a millisecond apart, have
    different ids. *)
Lemma createUser_ids_witness :
  get_prop (user_object bob) "id" <> get_prop (user_object alice) "id".
Proof.
  assert (H1 : createUser (P := RefPlatform) 1700000000000 "Bob" "s3cret" "admin"
                 empty_world = (Returns (user_object bob), world_bob))
    by (vm_compute; reflexivity).
  assert (H2 : createUser (P := RefPlatform) 1700000000001 "alice" "pw" "viewer"
                 world_bob = (Returns (user_object alice), world_bob_alice))
    by (vm_compute; reflexivity).
  destruct (createUser_ids (P := RefPlatform) _ _ _ _ _ _ _ _ _ _ _ _ _ _ H1 H2)
    as (_ & _ & Hiff).
  intros Heq. apply Hiff in Heq. discriminate.
Defined.

(** The claim of C8 fails here: two successful calls, for different users,
    read the same clock value and give both records the id [u_5]. *)
Lemma createUser_same_millisecond :
  createUser (P := RefPlatform) 5 "ann" "x" "admin" empty_world
  = (Returns (user_object ann), world_ann)
  /\ createUser (P := RefPlatform) 5 "ben" "y" "admin" world_ann
     = (Returns (user_object ben), world_ann_ben)
  /\ directory_is (P := RefPlatform) world_ann_ben [ann; ben]
  /\ get_prop (user_object ann) "id" = Returns (Some (JStr "u_5"))
  /\ get_prop (user_object ben) "id" = Returns (Some (JStr "u_5")).
Proof. repeat split; vm_compute; reflexivity. Qed.

(** [ensureDefaultAdmin_idempotent] from the empty store. *)
Lemma ensureDefaultAdmin_idempotent_witness :
  exists w1,
    ensureDefaultAdmin (P := RefPlatform) 1 empty_world = (Returns tt, w1)
    /\ directory_is (P := RefPlatform) w1
         [new_user (P := RefPlatform) 1 "admin@example.com" "admin123" "admin"]
    /\ ensureDefaultAdmin (P := RefPlatform) 2 w1 = (Returns tt, w1).
Proof.
  apply (proj1 (ensureDefaultAdmin_idempotent (P := RefPlatform) 1 2 empty_world)).
  vm_compute. reflexivity.
Defined.

(** [getSession_unparseable] at a store whose session key holds [{oops]. *)
Lemma getSession_unparseable_witness :
  getSession (P := RefPlatform) 1700000003000 world_broken_session
  = (Returns JNull, world_broken_session)
  /\ isAuthenticated (P := RefPlatform) 1700000003000 world_broken_session
     = (Returns false, world_broken_session).
Proof.
  apply (getSession_unparseable (P := RefPlatform) 1700000003000 world_broken_session "{oops").
  - vm_compute. reflexivity.
  - discriminate.
  - vm_compute. reflexivity.
Defined.

(** The claim of C10 fails here: the session key holds the empty string,
    which is not JSON; [getSession] takes it for no session, rehydrates
    from the remember pointer, writes the new session to [sessionStorage],
    and [isAuthenticated] returns [true]. *)
Lemma getSession_empty_text_rehydrates :
  sessionStorage world_empty_session !! SESSION_KEY = Some ""
  /\ JSON_parse (Platform := RefPlatform) "" = None
  /\ fst (getSession (P := RefPlatform) 1700000003000 world_empty_session)
     = Returns (session_object (P := RefPlatform) bob 1700000003000)
  /\ sessionStorage (snd (getSession (P := RefPlatform) 1700000003000 world_empty_session))
       !! SESSION_KEY
     = Some (JSON_stringify (Platform := RefPlatform) (session_object (P := RefPlatform) bob 1700000003000))
  /\ fst (isAuthenticated (P := RefPlatform) 1700000003000 world_empty_session)
     = Returns true.
Proof. repeat split; vm_compute; reflexivity. Qed.

(** * The rest of js/auth.js and the scripts that share its storage keys

    The login form handler, the page initialisation, and the open-access
    scripts [js/app.js] and [js/inventory.js], which read and write the same
    keys.  Of the page only what these functions decide is kept: the
    address last assigned to [window.location.href], and the alert that
    [showAuthError] fills.  A [try] around storage calls is transparent,
    since storage calls do not throw here. *)

(** ** The login page *)

Definition redirectPath : string := "products.html".

(** The alert element [#authError]: its text, and whether it carries the
    class [d-none]. *)
Record Alert : Type := mkAlert {
  alert_text : string;
  alert_hidden : bool
}.

Record Page : Type := mkPage {
  storage : World;
  has_loginForm : bool;
  authError : option Alert;
  location_href : option string
}.

(** What the submit handler reads from the form: the value of [#loginUser]
    and of [#loginPass], and the state of [#rememberMe]; [None] where the
    element is missing. *)
Record LoginForm : Type := mkForm {
  loginUser : option string;
  loginPass : option string;
  rememberMe : option bool
}.

(** [showAuthError(msg)]: fill and unhide the alert if there is one; else
    append a new one to the form, if there is a form. *)
Definition showAuthError (msg : string) (pg : Page) : Page :=
  match authError pg with
  | Some _ =>
      mkPage (storage pg) (has_loginForm pg) (Some (mkAlert msg false)) (location_href pg)
  | None =>
      if has_loginForm pg
      then mkPage (storage pg) (has_loginForm pg) (Some (mkAlert msg false)) (location_href pg)
      else pg
  end.

(** [result.message || 'Login failed'], as the text [showAuthError] sets. *)
Definition message_text (result : JSValue) : outcome string :=
  match get_prop result "message" with
  | Throws e => Throws e
  | Returns (Some v) => if truthy v then ToString v else Returns "Login failed"
  | Returns None => Returns "Login failed"
  end.

(** The session object [setSession] writes for a user value: the
    properties the value has among [id], [username] and [role], and the
    time. *)
Definition prop_of (v : JSValue) (k : string) : option JSValue :=
  match get_prop v k with
  | Returns x => x
  | Throws _ => None
  end.

Definition session_for {P : Platform} (now : Z) (user : JSValue) : JSValue :=
  JObj (defined_fields [("id", prop_of user "id");
                        ("username", prop_of user "username");
                        ("role", prop_of user "role");
                        ("createdAt", Some (JStr (toISOString now)))]).

(** The [id], [username] and [role] of a user value are strings, or
    missing: what [JSON.stringify] followed by [JSON.parse] gives back as
    it was. *)
Definition text_or_missing (x : option JSValue) : bool :=
  match x with
  | None | Some (JStr _) => true
  | Some _ => false
  end.

Definition text_props (user : JSValue) : bool :=
  forallb (fun k => text_or_missing (prop_of user k)) ["id"; "username"; "role"].

(** A new browsing context on the same origin: the same [localStorage], an
    empty [sessionStorage]. *)
Definition new_context (w : World) : World := mkWorld (localStorage w) ∅.

Section LoginPage.
Context {P : Platform}.

(** [String.prototype.trim], the browser's. *)
Variable trim : string -> string.

Definition with_storage (w : World) (pg : Page) : Page :=
  mkPage w (has_loginForm pg) (authError pg) (location_href pg).

Definition navigate (href : string) (pg : Page) : Page :=
  mkPage (storage pg) (has_loginForm pg) (authError pg) (Some href).

(** The submit handler [attachLoginHandler] installs on [#loginForm]. *)
Definition on_submit (now : Z) (form : LoginForm) (pg : Page) : Page :=
  let username := option_map trim (loginUser form) in
  let password := default "" (loginPass form) in
  let remember := default false (rememberMe form) in
  if not_item username || not_string password then pg
  else
    let failed := showAuthError "An error occurred during login" in
    match authenticate (default "" username) password (storage pg) with
    | (Throws _, w) => failed (with_storage w pg)
    | (Returns result, w) =>
        match get_prop result "success" with
        | Throws _ => failed (with_storage w pg)
        | Returns s =>
            if from_option truthy false s
            then
              match get_prop result "user" with
              | Throws _ => failed (with_storage w pg)
              | Returns user =>
                  match setSession now (default JNull user) remember w with
                  | (Returns _, w') => navigate redirectPath (with_storage w' pg)
                  | (Throws _, w') => failed (with_storage w' pg)
                  end
              end
            else
              match message_text result with
              | Returns msg => showAuthError msg (with_storage w pg)
              | Throws _ => failed (with_storage w pg)
              end
        end
    end.

(** The [DOMContentLoaded] handler: the result tells whether the redirect
    to [redirectPath] is scheduled. *)
Definition onDOMContentLoaded (now_create now_session : Z) : M bool :=
  ensureDefaultAdmin now_create ;;;
  isAuthenticated now_session.

End LoginPage.

(** ** js/app.js *)
Module App.
Section App.
Context {P : Platform}.

(** The object both open-access scripts store; [Date.now()] and
    [new Date()] are two readings of the clock. *)
Definition devUser (now_id now_created : Z) : JSValue :=
  JObj [("id", JStr ("dev_" +:+ Number_toString now_id));
        ("username", JStr "dev-admin");
        ("role", JStr "admin");
        ("createdAt", JStr (toISOString now_created))].

Definition guest (now : Z) : JSValue :=
  JObj [("id", JStr "guest");
        ("username", JStr "Guest");
        ("role", JStr "viewer");
        ("createdAt", JStr (toISOString now))].

Definition createDevSessionIfMissing (now_id now_created : Z) : M unit :=
  raw <- sessionStorage_getItem SESSION_KEY ;;
  if not_item raw
  then
    sessionStorage_setItem SESSION_KEY (JSON_stringify (devUser now_id now_created)) ;;;
    localStorage_setItem REMEMBER_KEY "dev-admin"
  else ret tt.

Definition getSession (now : Z) : M JSValue :=
  raw <- sessionStorage_getItem SESSION_KEY ;;
  if not_item raw then ret (guest now)
  else
    match JSON_parse (default "" raw) with
    | Some v => ret v
    | None => ret (guest now)
    end.

Definition isAuthenticated : M bool :=
  raw <- sessionStorage_getItem SESSION_KEY ;;
  ret (negb (not_item raw)).

Definition login (now_id now_created now_guest : Z)
    (username password : string) (remember : bool) : M JSValue :=
  createDevSessionIfMissing now_id now_created ;;;
  user <- getSession now_guest ;;
  ret (JObj [("success", JBool true); ("user", user)]).

Definition logout (forget : bool) : M unit :=
  sessionStorage_removeItem SESSION_KEY ;;;
  if forget then localStorage_removeItem REMEMBER_KEY else ret tt.

End App.
End App.

(** ** js/inventory.js *)
Module Inventory.
Section Inventory.
Context {P : Platform}.

Definition ensureSession (now_id now_created : Z) : M unit :=
  raw <- sessionStorage_getItem SESSION_KEY ;;
  if not_item raw
  then sessionStorage_setItem SESSION_KEY (JSON_stringify (App.devUser now_id now_created))
  else ret tt.

End Inventory.
End Inventory.

(** ** Properties of the rest of the code *)

(** The characters [0-9a-f]. *)
Definition is_hex_digit (c : ascii) : bool :=
  let n := N_of_ascii c in
  (((48 <=? n) && (n <=? 57)) || ((97 <=? n) && (n <=? 102)))%N.

Fixpoint string_forallb (p : ascii -> bool) (s : string) : bool :=
  match s with
  | "" => true
  | String c s' => p c && string_forallb p s'
  end.

(** The value of a hex digit, and the byte two of them denote. *)
Definition hex_value (c : ascii) : N :=
  let n := N_of_ascii c in
  if (n <=? 57)%N then (n - 48)%N else (n - 87)%N.

Fixpoint hexToBuf (s : string) : list Byte.byte :=
  match s with
  | String c1 (String c2 s') =>
      default Byte.x00 (Byte.of_N (16 * hex_value c1 + hex_value c2)) :: hexToBuf s'
  | _ => []
  end.

Lemma concat_empty_cons (x : string) (l : list string) :
  String.concat "" (x :: l) = x +:+ String.concat "" l.
Proof.
  destruct l as [|y l]; cbn [String.concat].
  - now rewrite Ref.append_empty_r.
  - reflexivity.
Qed.

Lemma hex_pair_shape (b : Byte.byte) :
  exists c1 c2,
    padStart2 (toString16 (Byte.to_N b)) = String c1 (String c2 "")
    /\ is_hex_digit c1 = true /\ is_hex_digit c2 = true
    /\ Byte.of_N (16 * hex_value c1 + hex_value c2) = Some b.
Proof. destruct b; do 2 eexists; repeat split; reflexivity. Qed.

Lemma bufToHex_cons (b : Byte.byte) (buffer : list Byte.byte) :
  exists c1 c2,
    bufToHex (b :: buffer) = String c1 (String c2 (bufToHex buffer))
    /\ is_hex_digit c1 = true /\ is_hex_digit c2 = true
    /\ Byte.of_N (16 * hex_value c1 + hex_value c2) = Some b.
Proof.
  destruct (hex_pair_shape b) as (c1 & c2 & Hpair & H1 & H2 & Hb).
  exists c1, c2. repeat split; try assumption.
  unfold bufToHex. cbn [List.map]. rewrite concat_empty_cons, Hpair. reflexivity.
Qed.

(** X1: the hex string of a buffer has two characters for each byte, all of
    them digits or the letters a to f in lower case. *)
Theorem bufToHex_length_alphabet (buffer : list Byte.byte) :
  String.length (bufToHex buffer) = (2 * List.length buffer)%nat
  /\ string_forallb is_hex_digit (bufToHex buffer) = true.
Proof.
  induction buffer as [|b buffer [IHlen IHhex]]; [split; reflexivity|].
  destruct (bufToHex_cons b buffer) as (c1 & c2 & -> & H1 & H2 & _).
  split.
  - cbn [String.length List.length]. rewrite IHlen. lia.
  - cbn [string_forallb]. now rewrite H1, H2, IHhex.
Qed.

(** X2: the bytes can be read back from the hex string, so different
    buffers have different hex strings. *)
Theorem bufToHex_injective (a b : list Byte.byte) :
  hexToBuf (bufToHex a) = a /\ (bufToHex a = bufToHex b -> a = b).
Proof.
  assert (Hback : forall l, hexToBuf (bufToHex l) = l).
  { induction l as [|x l IH]; [reflexivity|].
    destruct (bufToHex_cons x l) as (c1 & c2 & -> & _ & _ & Hx).
    cbn [hexToBuf]. now rewrite Hx, IH. }
  split; [apply Hback|].
  intros H. rewrite <- (Hback a), <- (Hback b). now rewrite H.
Qed.

(** A stored value that is an array. *)
Definition is_array (v : JSValue) : bool :=
  match v with
  | JArr _ => true
  | _ => false
  end.

Section More.
Context {P : Platform}.

Ltac unfold_monad :=
  unfold bind, ret, throw, lift, try_catch,
    localStorage_getItem, localStorage_setItem, localStorage_removeItem,
    sessionStorage_getItem, sessionStorage_setItem, sessionStorage_removeItem.

(** *** Equations for [authenticate], [setSession] and [login] *)

Lemma authenticate_eq (username plainPassword : string) (w : World) :
  authenticate username plainPassword w =
  (match Array_find (same_username username) (stored_users w) with
   | Throws e => Throws e
   | Returns found =>
       if truthy (or_null found)
       then
         match get_prop (or_null found) "passwordHash" with
         | Throws e => Throws e
         | Returns stored =>
             Returns (if strict_eq_string (hashPassword plainPassword) stored
                      then success (or_null found)
                      else failure "Invalid credentials")
         end
       else Returns (failure "User not found")
   end, w).
Proof.
  unfold authenticate. unfold bind at 1. rewrite findUserByUsername_eq.
  destruct (Array_find _ _) as [found|]; [|reflexivity].
  destruct (truthy (or_null found)); cbn [negb]; [|reflexivity].
  unfold_monad. destruct (get_prop _ _) as [stored|]; [|reflexivity].
  destruct (strict_eq_string _ _); reflexivity.
Qed.

Lemma setSession_eq (now : Z) (user : JSValue) (remember : bool) (w : World) :
  setSession now user remember w =
  match user with
  | JNull => (Throws TypeError, w)
  | _ =>
      let ss := <[SESSION_KEY := JSON_stringify (session_for now user)]> (sessionStorage w) in
      if remember
      then
        match ToString_opt (prop_of user "username") with
        | Returns name =>
            (Returns tt, mkWorld (<[REMEMBER_KEY := name]> (localStorage w)) ss)
        | Throws e => (Throws e, mkWorld (localStorage w) ss)
        end
      else (Returns tt, mkWorld (delete REMEMBER_KEY (localStorage w)) ss)
  end.
Proof.
  destruct user; try reflexivity; destruct remember; try reflexivity;
    unfold setSession, session_for, prop_of; unfold_monad; cbn [get_prop];
    destruct (ToString_opt _); reflexivity.
Qed.

Lemma login_eq (now : Z) (username password : string) (remember : bool) (w : World) :
  login now username password remember w =
  match fst (authenticate username password w) with
  | Throws e => (Throws e, w)
  | Returns r =>
      match get_prop r "success" with
      | Throws e => (Throws e, w)
      | Returns s =>
          if from_option truthy false s
          then
            match get_prop r "user" with
            | Throws e => (Throws e, w)
            | Returns user =>
                match setSession now (default JNull user) remember w with
                | (Returns _, w1) => (Returns r, w1)
                | (Throws e, w1) => (Throws e, w1)
                end
            end
          else (Returns r, w)
      end
  end.
Proof.
  unfold login. unfold bind at 1. rewrite authenticate_eq. cbn [fst].
  destruct (match Array_find _ _ with Returns _ => _ | Throws e => Throws e end)
    as [r|]; [|reflexivity].
  unfold_monad. destruct (get_prop r "success") as [s|]; [|reflexivity].
  destruct (from_option truthy false s); [|reflexivity].
  destruct (get_prop r "user") as [user|]; [|reflexivity].
  destruct (setSession _ _ _ _) as [[[]|] w1]; reflexivity.
Qed.

Lemma login_success (now : Z) (username password : string) (remember : bool)
    (w : World) (user : JSValue) :
  authenticate username password w = (Returns (success user), w) ->
  login now username password remember w =
  match setSession now user remember w with
  | (Returns _, w1) => (Returns (success user), w1)
  | (Throws e, w1) => (Throws e, w1)
  end.
Proof. intros H. rewrite login_eq, H. reflexivity. Qed.

Lemma login_failure (now : Z) (username password : string) (remember : bool)
    (w : World) (message : string) :
  authenticate username password w = (Returns (failure message), w) ->
  login now username password remember w = (Returns (failure message), w).
Proof. intros H. rewrite login_eq, H. reflexivity. Qed.

(** Elements [some] went through without throwing do not make [find] throw
    for another name; an element pushed after them that does not match is
    not found. *)
Lemma find_loop_other (u name : string) (l : list JSValue) (x : JSValue) :
  some_loop (same_username u) l = Returns false ->
  same_username name x = Returns false ->
  find_loop (same_username name) (l ++ [x]) = find_loop (same_username name) l.
Proof.
  intros Hsome Hx. induction l as [|y l IH].
  - cbn. now rewrite Hx.
  - cbn [some_loop] in Hsome. cbn [app find_loop].
    destruct (same_username u y) as [[]|] eqn:Hy; try discriminate.
    assert (exists b, same_username name y = Returns b) as [b Hb].
    { unfold same_username in *.
      destruct (get_prop y "username") as [[[ | | |s| | ]|]|]; try discriminate.
      eauto. }
    rewrite Hb. destruct b; [reflexivity | now apply IH].
Qed.

Lemma createUser_frame (now : Z) (username plainPassword role : string) (w : World) :
  sessionStorage (snd (createUser now username plainPassword role w)) = sessionStorage w
  /\ forall k, k <> USERS_KEY ->
       localStorage (snd (createUser now username plainPassword role w)) !! k
       = localStorage w !! k.
Proof.
  rewrite createUser_eq.
  destruct (not_string username || not_string plainPassword); [now split|].
  destruct (Array_some _ _) as [[]|]; try now split.
  cbn zeta. destruct (Array_push _ _); [|now split].
  split; [reflexivity|]. intros k Hk. cbn. now apply lookup_insert_ne.
Qed.

Lemma created_is_found (now : Z) (username plainPassword role : string)
    (w w' : World) (user : JSValue) :
  createUser now username plainPassword role w = (Returns user, w') ->
  user = user_object (new_user now username plainPassword role)
  /\ Array_find (same_username username) (stored_users w') = Returns (Some user).
Proof.
  intros Hcreate.
  destruct (createUser_Returns _ _ _ _ _ _ _ Hcreate)
    as (l & _ & _ & _ & Hsome & -> & Hw).
  split; [reflexivity|]. rewrite Hw. cbn [Array_find].
  rewrite (find_loop_after _ _ _ Hsome). cbn [find_loop].
  rewrite same_username_user. unfold new_user at 1; cbn [user_username].
  now rewrite String.eqb_refl.
Qed.

Lemma findByUsername_variant (recs : list UserRecord) (a b : string) :
  toLowerCase a = toLowerCase b -> findByUsername recs a = findByUsername recs b.
Proof. intros H. unfold findByUsername. now rewrite H. Qed.

(** *** Lookup and authentication *)

(** X3: [findUserByUsername] and [authenticate] never write to storage,
    whatever it holds, and depend on the username only through its
    lower-case form. *)
Theorem lookup_reads_only (u v plainPassword : string) (w : World) :
  toLowerCase v = toLowerCase u ->
  findUserByUsername v w = findUserByUsername u w
  /\ authenticate v plainPassword w = authenticate u plainPassword w
  /\ snd (findUserByUsername u w) = w
  /\ snd (authenticate u plainPassword w) = w.
Proof.
  intros H. rewrite !findUserByUsername_eq, !authenticate_eq.
  assert (Hfind : Array_find (same_username v) (stored_users w)
                  = Array_find (same_username u) (stored_users w)).
  { destruct (stored_users w); try reflexivity. now apply find_loop_variant. }
  rewrite Hfind. repeat split.
Qed.

(** X4: after a successful [createUser(u, p, r)], [authenticate(u, p')]
    succeeds with the new record exactly when [p'] hashes like [p], and
    fails with 'Invalid credentials' otherwise. *)
Theorem createUser_then_authenticate (now : Z) (username plainPassword role attempt : string)
    (w w' : World) (user : JSValue) :
  createUser now username plainPassword role w = (Returns user, w') ->
  authenticate username attempt w' =
  (Returns (if String.eqb (hashPassword attempt) (hashPassword plainPassword)
            then success user
            else failure "Invalid credentials"), w')
  /\ authenticate username plainPassword w' = (Returns (success user), w').
Proof.
  intros Hcreate. destruct (created_is_found _ _ _ _ _ _ _ Hcreate) as [-> Hfind].
  assert (Hauth : forall a, authenticate username a w' =
            (Returns (if String.eqb (hashPassword a) (hashPassword plainPassword)
                      then success (user_object (new_user now username plainPassword role))
                      else failure "Invalid credentials"), w')).
  { intros a. rewrite authenticate_eq, Hfind. reflexivity. }
  split; [apply Hauth|]. rewrite Hauth. now rewrite String.eqb_refl.
Qed.

(** X5: a successful [createUser] writes the users key only: session and
    remember pointer stay as they were; and on a store holding a directory
    of user records [authenticate] answers as before for every username
    that differs from the new one after lower-casing.  ([createUser]
    writes the whole directory again; records of strings come back as they
    were.) *)
Theorem createUser_leaves_others (now : Z) (username plainPassword role : string)
    (w w' : World) (user : JSValue) :
  createUser now username plainPassword role w = (Returns user, w') ->
  sessionStorage w' = sessionStorage w
  /\ (forall k, k <> USERS_KEY -> localStorage w' !! k = localStorage w !! k)
  /\ (forall recs name attempt,
        directory_is w recs ->
        toLowerCase name <> toLowerCase username ->
        fst (authenticate name attempt w') = fst (authenticate name attempt w)).
Proof.
  intros Hcreate.
  pose proof (createUser_frame now username plainPassword role w) as [Hs Hl].
  rewrite Hcreate in Hs, Hl. cbn [snd] in Hs, Hl.
  split; [exact Hs|]. split; [exact Hl|].
  intros recs name attempt _ Hname.
  destruct (createUser_Returns _ _ _ _ _ _ _ Hcreate)
    as (l & _ & _ & Hw & Hsome & -> & Hw').
  rewrite !authenticate_eq, Hw, Hw'. cbn [fst Array_find].
  rewrite (find_loop_other username name l _ Hsome); [reflexivity|].
  rewrite same_username_user. unfold new_user; cbn [user_username].
  f_equal. apply String.eqb_neq. congruence.
Qed.

(** X6: when the users key holds JSON that is not an array ([null], a
    number, a string, an object), [findUserByUsername], [authenticate],
    [login] and (for non-empty arguments) [createUser] throw a [TypeError]
    and write nothing. *)
Theorem not_an_array_throws (now : Z) (username plainPassword role : string)
    (remember : bool) (w : World) :
  is_array (stored_users w) = false ->
  findUserByUsername username w = (Throws TypeError, w)
  /\ authenticate username plainPassword w = (Throws TypeError, w)
  /\ login now username plainPassword remember w = (Throws TypeError, w)
  /\ (username <> "" -> plainPassword <> "" ->
      createUser now username plainPassword role w = (Throws TypeError, w)).
Proof.
  intros Harr.
  assert (Hfind : Array_find (same_username username) (stored_users w) = Throws TypeError)
    by (destruct (stored_users w); try reflexivity; discriminate).
  assert (Hauth : authenticate username plainPassword w = (Throws TypeError, w))
    by now rewrite authenticate_eq, Hfind.
  repeat split.
  - now rewrite findUserByUsername_eq, Hfind.
  - exact Hauth.
  - now rewrite login_eq, Hauth.
  - intros Hu Hp. rewrite createUser_eq.
    rewrite (not_string_false _ Hu), (not_string_false _ Hp). cbn [orb].
    destruct (stored_users w); try reflexivity; discriminate.
Qed.

(** *** The default account *)

Lemma createUser_not_array (now : Z) (username plainPassword role : string) (w : World) :
  is_array (stored_users w) = false ->
  snd (createUser now username plainPassword role w) = w.
Proof.
  intros Harr. rewrite createUser_eq.
  destruct (not_string username || not_string plainPassword); [reflexivity|].
  destruct (stored_users w); try reflexivity; discriminate.
Qed.

(** X7: [ensureDefaultAdmin] throws only when the users key holds the JSON
    text [null]; otherwise it returns normally, also when [createUser]
    fails inside it.  It writes nothing unless the stored value is the empty
    array, and never touches the session or the remember pointer. *)
Theorem ensureDefaultAdmin_contained (now : Z) (w : World) :
  (stored_users w = JNull -> ensureDefaultAdmin now w = (Throws TypeError, w))
  /\ (stored_users w <> JNull -> fst (ensureDefaultAdmin now w) = Returns tt)
  /\ (stored_users w <> JArr [] -> snd (ensureDefaultAdmin now w) = w)
  /\ sessionStorage (snd (ensureDefaultAdmin now w)) = sessionStorage w
  /\ (forall k, k <> USERS_KEY ->
        localStorage (snd (ensureDefaultAdmin now w)) !! k = localStorage w !! k).
Proof.
  rewrite ensureDefaultAdmin_eq.
  pose proof (createUser_frame now "admin@example.com" "admin123" "admin" w) as [Hs Hl].
  repeat split.
  - now intros ->.
  - intros Hnull. destruct (stored_users w); try contradiction; cbn [get_length];
      match goal with |- context [strict_eq_zero ?x] => destruct (strict_eq_zero x) end;
      reflexivity.
  - intros Hne.
    destruct (stored_users w) as [ | b | n | s | l | fs ] eqn:Hv; cbn [get_length];
      try reflexivity.
    + destruct (strict_eq_zero _); [|reflexivity].
      apply createUser_not_array. now rewrite Hv.
    + destruct l as [|x l]; [contradiction | reflexivity].
    + destruct (strict_eq_zero _); [|reflexivity].
      apply createUser_not_array. now rewrite Hv.
  - destruct (get_length _) as [len|]; [|reflexivity].
    destruct (strict_eq_zero len); [exact Hs | reflexivity].
  - intros k Hk. destruct (get_length _) as [len|]; [|reflexivity].
    destruct (strict_eq_zero len); [now apply Hl | reflexivity].
Qed.

(** X8: after [ensureDefaultAdmin] on an empty directory, [login] with the
    default password and the default username in any letter case
    succeeds with the default admin record. *)
Theorem default_admin_can_login (now1 now2 : Z) (name : string) (remember : bool)
    (w : World) :
  stored_users w = JArr [] ->
  toLowerCase name = toLowerCase "admin@example.com" ->
  fst (login now2 name "admin123" remember (snd (ensureDefaultAdmin now1 w)))
  = Returns (success (user_object (new_user now1 "admin@example.com" "admin123" "admin"))).
Proof.
  intros Hempty Hname.
  rewrite ensureDefaultAdmin_eq, Hempty. cbn [get_length List.length strict_eq_zero snd].
  change (Z.of_nat 0 =? 0) with true. cbn iota.
  destruct (createUser_succeeds now1 "admin@example.com" "admin123" "admin" w []
              Hempty ltac:(discriminate) ltac:(discriminate) eq_refl)
    as (w' & Hcreate & _).
  rewrite Hcreate. cbn [snd].
  destruct (created_is_found _ _ _ _ _ _ _ Hcreate) as [_ Hfind].
  assert (Hauth : authenticate name "admin123" w'
            = (Returns (success (user_object
                 (new_user now1 "admin@example.com" "admin123" "admin"))), w')).
  { rewrite authenticate_eq.
    replace (Array_find (same_username name) (stored_users w'))
      with (Array_find (same_username "admin@example.com") (stored_users w')).
    - rewrite Hfind. cbn. now rewrite String.eqb_refl.
    - destruct (stored_users w'); try reflexivity.
      symmetry. now apply find_loop_variant. }
  rewrite (login_success _ _ _ _ _ _ Hauth), setSession_eq.
  destruct remember; reflexivity.
Qed.

(** *** Sessions *)

Lemma getSession_present (now : Z) (w : World) :
  not_item (sessionStorage w !! SESSION_KEY) = false ->
  getSession now w =
  (Returns match JSON_parse (default "" (sessionStorage w !! SESSION_KEY)) with
           | Some v => v
           | None => JNull
           end, w).
Proof.
  intros H. unfold getSession. unfold bind at 1. unfold sessionStorage_getItem at 1.
  rewrite H. destruct (JSON_parse _); reflexivity.
Qed.

Lemma getSession_missing (now : Z) (w : World) :
  not_item (sessionStorage w !! SESSION_KEY) = true ->
  getSession now w =
  if not_item (localStorage w !! REMEMBER_KEY) then (Returns JNull, w)
  else
    match Array_find (same_username (default "" (localStorage w !! REMEMBER_KEY)))
            (stored_users w) with
    | Throws e => (Throws e, w)
    | Returns found =>
        if truthy (or_null found)
        then
          match setSession now (or_null found) true w with
          | (Returns _, w1) => parse_or_throw (sessionStorage w1 !! SESSION_KEY) w1
          | (Throws e, w1) => (Throws e, w1)
          end
        else (Returns JNull, w)
    end.
Proof.
  intros H. unfold getSession. unfold bind at 1. unfold sessionStorage_getItem at 1.
  rewrite H. unfold bind at 1. unfold localStorage_getItem at 1.
  destruct (not_item (localStorage w !! REMEMBER_KEY)); cbn [negb]; [reflexivity|].
  unfold bind at 1. rewrite findUserByUsername_eq.
  destruct (Array_find _ _) as [found|]; [|reflexivity].
  destruct (truthy (or_null found)); [|reflexivity].
  unfold bind at 1. destruct (setSession _ _ _ _) as [[[]|e] w1]; reflexivity.
Qed.

Lemma setSession_stored (now : Z) (user : JSValue) (remember : bool) (w w1 : World) :
  setSession now user remember w = (Returns tt, w1) ->
  sessionStorage w1 !! SESSION_KEY = Some (JSON_stringify (session_for now user))
  /\ localStorage w1 !! USERS_KEY = localStorage w !! USERS_KEY.
Proof.
  rewrite setSession_eq. intros H.
  assert (Hw : exists ls,
            w1 = mkWorld ls (<[SESSION_KEY := JSON_stringify (session_for now user)]>
                               (sessionStorage w))
            /\ ls !! USERS_KEY = localStorage w !! USERS_KEY).
  { destruct user; try discriminate; cbn zeta in H; destruct remember;
      try (destruct (ToString_opt _); try discriminate);
      injection H as <-; eexists; (split; [reflexivity|]);
      (now apply lookup_insert_ne) || (now apply lookup_delete_ne). }
  destruct Hw as (ls & -> & Hls). split; [apply lookup_insert_eq | exact Hls].
Qed.

Lemma not_item_stringify (v : JSValue) : not_item (Some (JSON_stringify v)) = false.
Proof. cbn. apply not_string_false, JSON_stringify_nonempty. Qed.

Lemma getSession_after_write (now : Z) (w : World) (v : JSValue) :
  sessionStorage w !! SESSION_KEY = Some (JSON_stringify v) ->
  getSession now w = (Returns v, w).
Proof.
  intros H. rewrite getSession_present by (rewrite H; apply not_item_stringify).
  rewrite H. cbn [default from_option id]. now rewrite JSON_parse_stringify.
Qed.

Lemma session_for_props (now : Z) (user : JSValue) :
  prop_of (session_for now user) "id" = prop_of user "id"
  /\ prop_of (session_for now user) "username" = prop_of user "username"
  /\ prop_of (session_for now user) "role" = prop_of user "role"
  /\ prop_of (session_for now user) "createdAt" = Some (JStr (toISOString now))
  /\ forall k v, prop_of (session_for now user) k = Some v ->
       In k ["id"; "username"; "role"; "createdAt"].
Proof.
  unfold session_for.
  destruct (prop_of user "id"), (prop_of user "username"), (prop_of user "role");
    (repeat split; try reflexivity); intros k v; unfold prop_of;
    cbn [get_prop defined_fields get_field];
    repeat match goal with
           | |- context [String.eqb ?a k] =>
               destruct (String.eqb_spec a k); [subst k; intros _; cbn; tauto|]
           end; discriminate.
Qed.

(** X9: when the [id], [username] and [role] of the user value are
    strings (or missing), [getSession] returns right after [setSession]
    the session that was stored, and writes nothing; the session has the
    [id], [username] and [role] of the user value and the time of the
    [setSession] call.  The condition keeps to values that the browser's
    [JSON.stringify] and [JSON.parse] give back unchanged: a number too
    large for a double is read as [Infinity] and written as [null]. *)
Theorem setSession_then_getSession (now now' : Z) (user : JSValue) (remember : bool)
    (w w1 : World) :
  text_props user = true ->
  setSession now user remember w = (Returns tt, w1) ->
  getSession now' w1 = (Returns (session_for now user), w1)
  /\ prop_of (session_for now user) "id" = prop_of user "id"
  /\ prop_of (session_for now user) "username" = prop_of user "username"
  /\ prop_of (session_for now user) "role" = prop_of user "role"
  /\ prop_of (session_for now user) "createdAt" = Some (JStr (toISOString now)).
Proof.
  intros _ H. destruct (setSession_stored _ _ _ _ _ H) as [Hs _].
  destruct (session_for_props now user) as (H1 & H2 & H3 & H4 & _).
  repeat split; try assumption. now apply getSession_after_write.
Qed.

(** X10: the session [setSession] stores has no property besides [id],
    [username], [role] and [createdAt], whatever the user value carries: the
    password hash never reaches [sessionStorage].  The users key is not
    written. *)
Theorem setSession_stores_no_hash (now : Z) (user : JSValue) (remember : bool)
    (w w1 : World) :
  setSession now user remember w = (Returns tt, w1) ->
  sessionStorage w1 !! SESSION_KEY = Some (JSON_stringify (session_for now user))
  /\ prop_of (session_for now user) "passwordHash" = None
  /\ (forall k v, prop_of (session_for now user) k = Some v ->
        In k ["id"; "username"; "role"; "createdAt"])
  /\ localStorage w1 !! USERS_KEY = localStorage w !! USERS_KEY.
Proof.
  intros H. destruct (setSession_stored _ _ _ _ _ H) as [Hs Hu].
  destruct (session_for_props now user) as (_ & _ & _ & _ & Hkeys).
  repeat split; try assumption.
  destruct (prop_of (session_for now user) "passwordHash") as [v|] eqn:Hv; [|reflexivity].
  apply Hkeys in Hv. cbn in Hv. intuition discriminate.
Qed.

(** X11: [getSession] is stable: when it returns a value, a second call
    returns the same value and writes nothing, also after a rehydration. *)
Theorem getSession_twice (now now' : Z) (w w1 : World) (v : JSValue) :
  getSession now w = (Returns v, w1) ->
  getSession now' w1 = (Returns v, w1).
Proof.
  destruct (not_item (sessionStorage w !! SESSION_KEY)) eqn:Hitem.
  - rewrite (getSession_missing now w Hitem).
    destruct (not_item (localStorage w !! REMEMBER_KEY)) eqn:Hptr.
    + intros [= <- <-]. rewrite (getSession_missing now' w Hitem), Hptr. reflexivity.
    + destruct (Array_find _ _) as [found|] eqn:Hfind; [|discriminate].
      destruct (truthy (or_null found)) eqn:Htruthy.
      * destruct (setSession now (or_null found) true w) as [[[]|e] w2] eqn:Hset;
          [|discriminate].
        destruct (setSession_stored _ _ _ _ _ Hset) as [Hs _].
        rewrite Hs. unfold parse_or_throw. rewrite JSON_parse_stringify.
        intros [= <- <-]. now apply getSession_after_write.
      * intros [= <- <-].
        now rewrite (getSession_missing now' w Hitem), Hptr, Hfind, Htruthy.
  - rewrite (getSession_present now w Hitem). intros [= <- <-].
    now rewrite (getSession_present now' w Hitem).
Qed.

(** *** Login and logout *)

Lemma authenticate_typed (w : World) (recs : list UserRecord)
    (username plainPassword : string) :
  directory_is w recs ->
  authenticate username plainPassword w =
  (Returns
     match findByUsername recs username with
     | None => failure "User not found"
     | Some r =>
         if String.eqb (hashPassword plainPassword) (user_passwordHash r)
         then success (user_object r)
         else failure "Invalid credentials"
     end, w).
Proof.
  intros Hdir. unfold directory_is in Hdir.
  rewrite authenticate_eq, Hdir. cbn [Array_find]. rewrite find_loop_directory.
  destruct (findByUsername recs username) as [r|]; reflexivity.
Qed.

(** X12: a [login] that does not succeed writes nothing, whatever the store
    holds: it returns what [authenticate] returned (or throws what it threw),
    an existing session stays, and so does the remember pointer. *)
Theorem failed_login_writes_nothing (now : Z) (username password : string)
    (remember : bool) (w : World) :
  (forall user, fst (authenticate username password w) <> Returns (success user)) ->
  login now username password remember w = (fst (authenticate username password w), w).
Proof.
  intros Hfail. rewrite login_eq. revert Hfail. rewrite authenticate_eq. cbn [fst].
  destruct (Array_find _ _) as [found|]; [|reflexivity].
  destruct (truthy (or_null found)); [|reflexivity].
  destruct (get_prop _ _) as [stored|]; [|reflexivity].
  destruct (strict_eq_string _ _); [|reflexivity].
  intros Hfail. now destruct (Hfail (or_null found)).
Qed.

(** The world a successful [login] of the record [r] leaves. *)
Lemma login_typed (now : Z) (username password : string) (remember : bool)
    (w : World) (recs : list UserRecord) (r : UserRecord) :
  directory_is w recs -> findByUsername recs username = Some r ->
  hashPassword password = user_passwordHash r ->
  login now username password remember w =
  (Returns (success (user_object r)),
   mkWorld
     (if remember then <[REMEMBER_KEY := user_username r]> (localStorage w)
      else delete REMEMBER_KEY (localStorage w))
     (<[SESSION_KEY := JSON_stringify (session_object r now)]> (sessionStorage w))).
Proof.
  intros Hdir Hfind Hhash.
  assert (Hauth : authenticate username password w
                  = (Returns (success (user_object r)), w)).
  { rewrite (authenticate_typed w recs _ _ Hdir), Hfind, Hhash.
    now rewrite String.eqb_refl. }
  now rewrite (login_success _ _ _ _ _ _ Hauth), setSession_user.
Qed.

(** X13: a [login] with the right password for a stored record returns
    [{success: true, user}], stores the session and sets the remember
    pointer to the stored username, or removes it when "remember me" is off;
    [getSession] then returns that session and [isAuthenticated] is true. *)
Theorem login_opens_session (now now' : Z) (username password : string)
    (remember : bool) (w : World) (recs : list UserRecord) (r : UserRecord) :
  directory_is w recs -> findByUsername recs username = Some r ->
  hashPassword password = user_passwordHash r ->
  exists w1,
    login now username password remember w = (Returns (success (user_object r)), w1)
    /\ localStorage w1 !! REMEMBER_KEY
       = (if remember then Some (user_username r) else None)
    /\ getSession now' w1 = (Returns (session_object r now), w1)
    /\ isAuthenticated now' w1 = (Returns true, w1).
Proof.
  intros Hdir Hfind Hhash. eexists. split; [now apply (login_typed _ _ _ _ w recs r)|].
  assert (Hget : forall ls,
    getSession now'
      (mkWorld ls (<[SESSION_KEY := JSON_stringify (session_object r now)]>
                     (sessionStorage w)))
    = (Returns (session_object r now),
       mkWorld ls (<[SESSION_KEY := JSON_stringify (session_object r now)]>
                     (sessionStorage w)))).
  { intros ls. apply getSession_after_write. cbn. apply lookup_insert_eq. }
  repeat split.
  - cbn. destruct remember; [apply lookup_insert_eq | apply lookup_delete_eq].
  - apply Hget.
  - unfold isAuthenticated, bind. now rewrite Hget.
Qed.

(** X14: after [logout(true)], in any state, [getSession] returns [null],
    [isAuthenticated] is false, and neither writes anything. *)
Theorem logout_forget_ends_session (now : Z) (w : World) :
  getSession now (snd (logout true w)) = (Returns JNull, snd (logout true w))
  /\ isAuthenticated now (snd (logout true w)) = (Returns false, snd (logout true w)).
Proof.
  assert (Hget : getSession now (snd (logout true w))
                 = (Returns JNull, snd (logout true w))).
  { rewrite getSession_missing by (cbn; now rewrite lookup_delete_eq).
    cbn. now rewrite lookup_delete_eq. }
  split; [exact Hget|]. unfold isAuthenticated, bind. now rewrite Hget.
Qed.

(** After a successful [login] of [r]: a world with the same [localStorage]
    and no session rehydrates exactly when the login asked to be
    remembered. *)
Lemma after_login_without_session (now now' : Z) (username password : string)
    (remember : bool) (w w' : World) (recs : list UserRecord) (r : UserRecord) :
  directory_is w recs -> findByUsername recs username = Some r ->
  hashPassword password = user_passwordHash r -> user_username r <> "" ->
  localStorage w' = localStorage (snd (login now username password remember w)) ->
  sessionStorage w' !! SESSION_KEY = None ->
  fst (getSession now' w')
  = Returns (if remember then session_object r now' else JNull)
  /\ fst (isAuthenticated now' w') = Returns remember.
Proof.
  intros Hdir Hfind Hhash Hname Hls Hss.
  rewrite (login_typed _ _ _ _ w recs r Hdir Hfind Hhash) in Hls. cbn [snd localStorage] in Hls.
  assert (Hget : fst (getSession now' w')
                 = Returns (if remember then session_object r now' else JNull)).
  { destruct remember.
    - assert (Hdir' : directory_is w' recs).
      { unfold directory_is in *. rewrite <- Hdir. apply stored_users_ext.
        rewrite Hls. now apply lookup_insert_ne. }
      assert (Hown : findByUsername recs (user_username r) = Some r).
      { rewrite <- Hfind. apply findByUsername_variant.
        now apply (findByUsername_Some recs username r). }
      rewrite (getSession_rehydrates now' w' recs r (user_username r));
        try assumption; [reflexivity|].
      rewrite Hls. apply lookup_insert_eq.
    - rewrite getSession_missing by now rewrite Hss.
      rewrite Hls, lookup_delete_eq. reflexivity. }
  split; [exact Hget|].
  unfold isAuthenticated, bind.
  destruct (getSession now' w') as [[v|e] w2]; cbn [fst] in *; [|discriminate].
  injection Hget as ->. now destruct remember.
Qed.

(** X15: "remember me" is what survives the browsing context: in a new
    context (same [localStorage], empty [sessionStorage]) after a successful
    login, [isAuthenticated] is true exactly when the login asked to be
    remembered, and [getSession] then returns a fresh session of the same
    user. *)
Theorem remembered_in_new_context (now now' : Z) (username password : string)
    (remember : bool) (w : World) (recs : list UserRecord) (r : UserRecord) :
  directory_is w recs -> findByUsername recs username = Some r ->
  hashPassword password = user_passwordHash r -> user_username r <> "" ->
  let w' := new_context (snd (login now username password remember w)) in
  fst (getSession now' w')
  = Returns (if remember then session_object r now' else JNull)
  /\ fst (isAuthenticated now' w') = Returns remember.
Proof.
  intros Hdir Hfind Hhash Hname w'.
  apply (after_login_without_session now now' username password remember w w' recs r);
    try assumption; reflexivity.
Qed.

(** X16: [logout()] without [forget] does not end a remembered login: after
    a successful login and [logout(false)], [isAuthenticated] is true again
    exactly when the login asked to be remembered. *)
Theorem logout_keeps_remembered (now now' : Z) (username password : string)
    (remember : bool) (w : World) (recs : list UserRecord) (r : UserRecord) :
  directory_is w recs -> findByUsername recs username = Some r ->
  hashPassword password = user_passwordHash r -> user_username r <> "" ->
  let w' := snd (logout false (snd (login now username password remember w))) in
  fst (getSession now' w')
  = Returns (if remember then session_object r now' else JNull)
  /\ fst (isAuthenticated now' w') = Returns remember.
Proof.
  intros Hdir Hfind Hhash Hname w'.
  apply (after_login_without_session now now' username password remember w w' recs r);
    try assumption; [reflexivity|].
  subst w'. cbn. apply lookup_delete_eq.
Qed.

(** *** The login page *)

Lemma ensureDefaultAdmin_frame (now : Z) (w : World) :
  sessionStorage (snd (ensureDefaultAdmin now w)) = sessionStorage w
  /\ localStorage (snd (ensureDefaultAdmin now w)) !! REMEMBER_KEY
     = localStorage w !! REMEMBER_KEY.
Proof.
  rewrite ensureDefaultAdmin_eq.
  pose proof (createUser_frame now "admin@example.com" "admin123" "admin" w) as [Hs Hl].
  destruct (get_length _) as [len|]; [|now split].
  destruct (strict_eq_zero len); [|now split].
  split; [exact Hs | now apply Hl].
Qed.

Lemma ensureDefaultAdmin_returns (now : Z) (w : World) :
  stored_users w <> JNull -> fst (ensureDefaultAdmin now w) = Returns tt.
Proof.
  intros Hnull. rewrite ensureDefaultAdmin_eq.
  destruct (stored_users w); try contradiction; cbn [get_length];
    match goal with |- context [strict_eq_zero ?x] => destruct (strict_eq_zero x) end;
    reflexivity.
Qed.

Lemma with_storage_same (pg : Page) : with_storage (storage pg) pg = pg.
Proof. now destruct pg. Qed.

Section Submit.
Variable trim : string -> string.

(** X17: on a store holding the directory [recs], a submit with a username
    that is non-empty after trimming and a non-empty password looks the
    trimmed name up: with no such user the alert shows 'User not found',
    with a wrong password 'Invalid credentials', and in both cases nothing
    is stored and the page stays; with the right password the session is
    stored as [setSession] does and the page goes to [products.html]. *)
Theorem submit_outcome (now : Z) (form : LoginForm) (pg : Page)
    (recs : list UserRecord) (name password : string) :
  directory_is (storage pg) recs ->
  loginUser form = Some name -> trim name <> "" ->
  loginPass form = Some password -> password <> "" ->
  on_submit trim now form pg =
  match findByUsername recs (trim name) with
  | None => showAuthError "User not found" pg
  | Some r =>
      if String.eqb (hashPassword password) (user_passwordHash r)
      then
        mkPage (snd (setSession now (user_object r) (default false (rememberMe form))
                       (storage pg)))
               (has_loginForm pg) (authError pg) (Some redirectPath)
      else showAuthError "Invalid credentials" pg
  end.
Proof.
  intros Hdir Huser Hname Hpass Hpw. unfold on_submit. cbv zeta.
  rewrite Huser, Hpass. cbn [option_map default from_option id not_item].
  rewrite (not_string_false _ Hname), (not_string_false _ Hpw). cbn [orb].
  rewrite (authenticate_typed _ recs _ _ Hdir).
  destruct (findByUsername recs (trim name)) as [r|].
  - destruct (String.eqb _ _).
    + change (get_prop (success (user_object r)) "success")
        with (Returns (Some (JBool true))).
      change (get_prop (success (user_object r)) "user")
        with (Returns (Some (user_object r))).
      cbn [from_option truthy default id].
      rewrite setSession_user. reflexivity.
    + cbn. now rewrite with_storage_same.
  - cbn. now rewrite with_storage_same.
Qed.

(** X18: when the users key holds JSON that is not an array, a non-blank
    submit ends in the alert 'An error occurred during login'; nothing is
    stored and the page stays. *)
Theorem submit_on_broken_store (now : Z) (form : LoginForm) (pg : Page)
    (name password : string) :
  is_array (stored_users (storage pg)) = false ->
  loginUser form = Some name -> trim name <> "" ->
  loginPass form = Some password -> password <> "" ->
  on_submit trim now form pg = showAuthError "An error occurred during login" pg.
Proof.
  intros Harr Huser Hname Hpass Hpw. unfold on_submit. cbv zeta.
  rewrite Huser, Hpass. cbn [option_map default from_option id not_item].
  rewrite (not_string_false _ Hname), (not_string_false _ Hpw). cbn [orb].
  rewrite authenticate_eq.
  destruct (stored_users (storage pg)); try discriminate;
    cbn [Array_find]; now rewrite with_storage_same.
Qed.

End Submit.

(** X19: on a page load with no session and no remember pointer the
    redirect is not scheduled, whatever the users key holds (the JSON text
    [null] apart, on which [ensureDefaultAdmin] throws): only a stored
    session or a remember pointer logs anyone in. *)
Theorem first_visit_stays (now_create now_session : Z) (w : World) :
  stored_users w <> JNull ->
  sessionStorage w !! SESSION_KEY = None -> localStorage w !! REMEMBER_KEY = None ->
  fst (onDOMContentLoaded now_create now_session w) = Returns false.
Proof.
  intros Hnull Hs Hr. unfold onDOMContentLoaded. unfold bind at 1.
  pose proof (ensureDefaultAdmin_returns now_create w Hnull) as Hret.
  pose proof (ensureDefaultAdmin_frame now_create w) as [Hss Hls].
  destruct (ensureDefaultAdmin now_create w) as [[[]|e] w1]; cbn [fst snd] in *;
    [|discriminate].
  unfold isAuthenticated, bind.
  rewrite getSession_missing by now rewrite Hss, Hs.
  now rewrite Hls, Hr.
Qed.

(** X20: a visitor who logged in with "remember me" and comes back in a new
    browsing context is redirected on page load without logging in
    again. *)
Theorem remembered_visitor_redirected (now now_create now_session : Z)
    (username password : string) (w : World) (recs : list UserRecord) (r : UserRecord) :
  directory_is w recs -> findByUsername recs username = Some r ->
  hashPassword password = user_passwordHash r -> user_username r <> "" ->
  fst (onDOMContentLoaded now_create now_session
         (new_context (snd (login now username password true w))))
  = Returns true.
Proof.
  intros Hdir Hfind Hhash Hname.
  set (w' := new_context (snd (login now username password true w))).
  assert (Hls : localStorage w' = localStorage (snd (login now username password true w)))
    by reflexivity.
  assert (Hdir' : directory_is w' recs).
  { unfold directory_is in *. rewrite <- Hdir. apply stored_users_ext.
    rewrite Hls, (login_typed _ _ _ _ w recs r Hdir Hfind Hhash). cbn.
    now apply lookup_insert_ne. }
  assert (Hnoop : ensureDefaultAdmin now_create w' = (Returns tt, w')).
  { rewrite ensureDefaultAdmin_eq, Hdir'.
    destruct recs as [|r0 recs]; [discriminate|]. reflexivity. }
  unfold onDOMContentLoaded. unfold bind at 1. rewrite Hnoop.
  apply (after_login_without_session now now_session username password true w w' recs r);
    try assumption; reflexivity.
Qed.

(** *** The open-access scripts *)

Lemma createDevSessionIfMissing_eq (now_id now_created : Z) (w : World) :
  App.createDevSessionIfMissing now_id now_created w =
  (Returns tt,
   if not_item (sessionStorage w !! SESSION_KEY)
   then mkWorld (<[REMEMBER_KEY := "dev-admin"]> (localStorage w))
                (<[SESSION_KEY := JSON_stringify (App.devUser now_id now_created)]>
                   (sessionStorage w))
   else w).
Proof.
  unfold App.createDevSessionIfMissing. unfold_monad.
  destruct (not_item _); reflexivity.
Qed.

Lemma ensureSession_eq (now_id now_created : Z) (w : World) :
  Inventory.ensureSession now_id now_created w =
  (Returns tt,
   if not_item (sessionStorage w !! SESSION_KEY)
   then mkWorld (localStorage w)
                (<[SESSION_KEY := JSON_stringify (App.devUser now_id now_created)]>
                   (sessionStorage w))
   else w).
Proof.
  unfold Inventory.ensureSession. unfold_monad.
  destruct (not_item _); reflexivity.
Qed.

(** X21: [createDevSessionIfMissing] of js/app.js never replaces a session
    text that is there (any non-empty text, JSON or not), and a second call
    changes nothing: the first dev session, with its id and time, stays. *)
Theorem createDevSessionIfMissing_once (t1 t2 t3 t4 : Z) (w : World) :
  (not_item (sessionStorage w !! SESSION_KEY) = false ->
   App.createDevSessionIfMissing t1 t2 w = (Returns tt, w))
  /\ App.createDevSessionIfMissing t3 t4 (snd (App.createDevSessionIfMissing t1 t2 w))
     = (Returns tt, snd (App.createDevSessionIfMissing t1 t2 w)).
Proof.
  split.
  - intros H. now rewrite createDevSessionIfMissing_eq, H.
  - rewrite !createDevSessionIfMissing_eq. cbn [snd].
    destruct (not_item (sessionStorage w !! SESSION_KEY)) eqn:H.
    + cbn [sessionStorage]. rewrite lookup_insert_eq.
      now rewrite not_item_stringify.
    + now rewrite H.
Qed.

(** X22: [login] of js/app.js succeeds for every username and password,
    and afterwards its [isAuthenticated] is true; it leaves a session text
    that was there as it is. *)
Theorem open_login_always_succeeds (t1 t2 t3 : Z) (username password : string)
    (remember : bool) (w : World) :
  exists user w1,
    App.login t1 t2 t3 username password remember w = (Returns (success user), w1)
    /\ App.isAuthenticated w1 = (Returns true, w1)
    /\ sessionStorage w1 !! SESSION_KEY <> None
    /\ (not_item (sessionStorage w !! SESSION_KEY) = false -> w1 = w).
Proof.
  unfold App.login. unfold bind at 1. rewrite createDevSessionIfMissing_eq.
  set (w1 := if not_item (sessionStorage w !! SESSION_KEY) then _ else w).
  assert (Hitem : not_item (sessionStorage w1 !! SESSION_KEY) = false).
  { subst w1. destruct (not_item (sessionStorage w !! SESSION_KEY)) eqn:H; [|exact H].
    cbn [sessionStorage]. rewrite lookup_insert_eq. apply not_item_stringify. }
  unfold App.getSession. unfold_monad. rewrite Hitem.
  destruct (JSON_parse _) as [v|]; (do 2 eexists; repeat split; try reflexivity).
  all: try (cbn; now rewrite Hitem).
  all: try (intros Hnone; rewrite Hnone in Hitem; discriminate).
  all: subst w1; intros H; now rewrite H.
Qed.

(** X23: the dev session js/app.js stores is a login for js/auth.js too:
    after [createDevSessionIfMissing] on a store without a session text,
    [getSession] of js/auth.js returns the dev user, [isAuthenticated] is
    true, the remember pointer names [dev-admin], and the users key is as it
    was. *)
Theorem dev_session_is_a_login (t1 t2 now : Z) (w : World) :
  not_item (sessionStorage w !! SESSION_KEY) = true ->
  let w1 := snd (App.createDevSessionIfMissing t1 t2 w) in
  getSession now w1 = (Returns (App.devUser t1 t2), w1)
  /\ isAuthenticated now w1 = (Returns true, w1)
  /\ localStorage w1 !! REMEMBER_KEY = Some "dev-admin"
  /\ localStorage w1 !! USERS_KEY = localStorage w !! USERS_KEY.
Proof.
  intros H w1. subst w1. rewrite createDevSessionIfMissing_eq, H. cbn [snd].
  assert (Hget : forall ls ss,
            getSession now
              (mkWorld ls (<[SESSION_KEY := JSON_stringify (App.devUser t1 t2)]> ss))
            = (Returns (App.devUser t1 t2),
               mkWorld ls (<[SESSION_KEY := JSON_stringify (App.devUser t1 t2)]> ss))).
  { intros ls ss. apply getSession_after_write. cbn. apply lookup_insert_eq. }
  repeat split.
  - apply Hget.
  - unfold isAuthenticated, bind. now rewrite Hget.
  - cbn. apply lookup_insert_eq.
  - cbn. now apply lookup_insert_ne.
Qed.

(** X24: [ensureSession] of js/inventory.js writes [sessionStorage] only,
    never replaces a session text that is there, and a second call changes
    nothing. *)
Theorem ensureSession_once (t1 t2 t3 t4 : Z) (w : World) :
  localStorage (snd (Inventory.ensureSession t1 t2 w)) = localStorage w
  /\ (not_item (sessionStorage w !! SESSION_KEY) = false ->
      Inventory.ensureSession t1 t2 w = (Returns tt, w))
  /\ Inventory.ensureSession t3 t4 (snd (Inventory.ensureSession t1 t2 w))
     = (Returns tt, snd (Inventory.ensureSession t1 t2 w)).
Proof.
  rewrite !ensureSession_eq. cbn [snd]. repeat split.
  - now destruct (not_item _).
  - intros H. now rewrite H.
  - destruct (not_item (sessionStorage w !! SESSION_KEY)) eqn:H.
    + cbn [sessionStorage]. rewrite lookup_insert_eq.
      now rewrite not_item_stringify.
    + now rewrite H.
Qed.

End More.

(** ** The rest of the code run on the reference platform *)

Module RefPage.

(** [String.prototype.trim] on ASCII white space. *)
Definition is_space (c : ascii) : bool :=
  let n := N_of_ascii c in
  ((n =? 32) || ((9 <=? n) && (n <=? 13)))%N.

Fixpoint trim_start (s : string) : string :=
  match s with
  | "" => ""
  | String c s' => if is_space c then trim_start s' else s
  end.

Fixpoint trim_end (s : string) : string :=
  match s with
  | "" => ""
  | String c s' =>
      match trim_end s' with
      | "" => if is_space c then "" else String c ""
      | t => String c t
      end
  end.

Definition trim (s : string) : string := trim_end (trim_start s).

(** The login page over Bob's store, as loaded. *)
Definition page_bob : Page := mkPage world_bob true None None.

(** The same page over the store whose users key holds [42]. *)
Definition page_number : Page := mkPage world_number true None None.

Definition form_bob : LoginForm := mkForm (Some "  BOB ") (Some "s3cret") (Some true).

End RefPage.

Import RefPage.

Lemma bob_found_as_BOB : findByUsername (P := RefPlatform) [bob] "BOB" = Some bob.
Proof. vm_compute. reflexivity. Qed.

Lemma bob_password : hashPassword (P := RefPlatform) "s3cret" = user_passwordHash bob.
Proof. vm_compute. reflexivity. Qed.

Lemma bob_created :
  createUser (P := RefPlatform) 1700000000000 "Bob" "s3cret" "admin" empty_world
  = (Returns (user_object bob), world_bob).
Proof. vm_compute. reflexivity. Qed.

Lemma alice_created :
  createUser (P := RefPlatform) 1700000000001 "alice" "pw" "viewer" world_bob
  = (Returns (user_object alice), world_bob_alice).
Proof. vm_compute. reflexivity. Qed.

(** [lookup_reads_only]: [BOB] and [bob] authenticate alike. *)
Lemma lookup_reads_only_witness :
  authenticate (P := RefPlatform) "BOB" "s3cret" world_bob
  = authenticate (P := RefPlatform) "bob" "s3cret" world_bob.
Proof.
  apply (lookup_reads_only (P := RefPlatform) "bob" "BOB" "s3cret" world_bob).
  vm_compute. reflexivity.
Defined.

(** [createUser_then_authenticate]: Bob logs in with the password he
    registered with. *)
Lemma createUser_then_authenticate_witness :
  authenticate (P := RefPlatform) "Bob" "s3cret" world_bob
  = (Returns (success (user_object bob)), world_bob).
Proof.
  exact (proj2 (createUser_then_authenticate (P := RefPlatform) _ _ _ _ "wrong" _ _ _
                  bob_created)).
Defined.

(** [createUser_leaves_others]: registering Alice does not change Bob's
    login. *)
Lemma createUser_leaves_others_witness :
  fst (authenticate (P := RefPlatform) "Bob" "s3cret" world_bob_alice)
  = fst (authenticate (P := RefPlatform) "Bob" "s3cret" world_bob).
Proof.
  destruct (createUser_leaves_others (P := RefPlatform) _ _ _ _ _ _ _ alice_created)
    as (_ & _ & H).
  apply (H [bob]); [exact world_bob_directory | vm_compute; discriminate].
Defined.

(** [not_an_array_throws] at the store whose users key holds [42]. *)
Lemma not_an_array_throws_witness :
  login (P := RefPlatform) 1 "Bob" "s3cret" true world_number
  = (Throws TypeError, world_number).
Proof.
  destruct (not_an_array_throws (P := RefPlatform) 1 "Bob" "s3cret" "admin" true
              world_number) as (_ & _ & H & _); [vm_compute; reflexivity | exact H].
Defined.

(** [ensureDefaultAdmin_contained] at the same store: no throw, no write. *)
Lemma ensureDefaultAdmin_contained_witness :
  fst (ensureDefaultAdmin (P := RefPlatform) 1 world_number) = Returns tt
  /\ snd (ensureDefaultAdmin (P := RefPlatform) 1 world_number) = world_number.
Proof.
  destruct (ensureDefaultAdmin_contained (P := RefPlatform) 1 world_number)
    as (_ & Hret & Hsame & _).
  split; [apply Hret | apply Hsame]; vm_compute; discriminate.
Defined.

(** [default_admin_can_login] from the empty store, upper-case name. *)
Lemma default_admin_can_login_witness :
  fst (login (P := RefPlatform) 2 "ADMIN@EXAMPLE.COM" "admin123" false
         (snd (ensureDefaultAdmin (P := RefPlatform) 1 empty_world)))
  = Returns (success (user_object
      (new_user (P := RefPlatform) 1 "admin@example.com" "admin123" "admin"))).
Proof.
  apply (default_admin_can_login (P := RefPlatform) 1 2 "ADMIN@EXAMPLE.COM" false
           empty_world); vm_compute; reflexivity.
Defined.

Lemma bob_session_set :
  setSession (P := RefPlatform) 5 (user_object bob) true world_bob
  = (Returns tt, snd (setSession (P := RefPlatform) 5 (user_object bob) true world_bob)).
Proof. vm_compute. reflexivity. Qed.

(** [setSession_then_getSession] for Bob. *)
Lemma setSession_then_getSession_witness :
  let w1 := snd (setSession (P := RefPlatform) 5 (user_object bob) true world_bob) in
  getSession (P := RefPlatform) 6 w1
  = (Returns (session_for (P := RefPlatform) 5 (user_object bob)), w1).
Proof.
  cbv zeta.
  exact (proj1 (setSession_then_getSession (P := RefPlatform) 5 6 (user_object bob) true
                  world_bob _ eq_refl bob_session_set)).
Defined.

(** [setSession_stores_no_hash] for Bob. *)
Lemma setSession_stores_no_hash_witness :
  prop_of (session_for (P := RefPlatform) 5 (user_object bob)) "passwordHash" = None.
Proof.
  exact (proj1 (proj2 (setSession_stores_no_hash (P := RefPlatform) 5 _ _ _ _
                         bob_session_set))).
Defined.

(** [getSession_twice] after a rehydration. *)
Lemma getSession_twice_witness :
  let w1 := snd (getSession (P := RefPlatform) 7 world_empty_session) in
  getSession (P := RefPlatform) 8 w1
  = (Returns (session_object (P := RefPlatform) bob 7), w1).
Proof.
  cbv zeta.
  apply (getSession_twice (P := RefPlatform) 7 8 world_empty_session).
  vm_compute. reflexivity.
Defined.

(** [failed_login_writes_nothing]: a wrong password at Bob's store. *)
Lemma failed_login_writes_nothing_witness :
  login (P := RefPlatform) 9 "Bob" "wrong" true world_bob
  = (Returns (failure "Invalid credentials"), world_bob).
Proof.
  pose proof (failed_login_writes_nothing (P := RefPlatform) 9 "Bob" "wrong" true
                world_bob) as H.
  assert (Hauth : fst (authenticate (P := RefPlatform) "Bob" "wrong" world_bob)
                  = Returns (failure "Invalid credentials")) by (vm_compute; reflexivity).
  rewrite Hauth in H. apply H. intros user. discriminate.
Defined.

(** [login_opens_session] for Bob. *)
Lemma login_opens_session_witness :
  exists w1,
    login (P := RefPlatform) 9 "BOB" "s3cret" true world_bob
    = (Returns (success (user_object bob)), w1)
    /\ localStorage w1 !! REMEMBER_KEY = Some "Bob"
    /\ getSession (P := RefPlatform) 10 w1
       = (Returns (session_object (P := RefPlatform) bob 9), w1)
    /\ isAuthenticated (P := RefPlatform) 10 w1 = (Returns true, w1).
Proof.
  exact (login_opens_session (P := RefPlatform) 9 10 "BOB" "s3cret" true world_bob
           [bob] bob world_bob_directory bob_found_as_BOB bob_password).
Defined.

(** [remembered_in_new_context] for Bob, remembered and not. *)
Lemma remembered_in_new_context_witness :
  fst (isAuthenticated (P := RefPlatform) 10
         (new_context (snd (login (P := RefPlatform) 9 "BOB" "s3cret" true world_bob))))
  = Returns true
  /\ fst (isAuthenticated (P := RefPlatform) 10
         (new_context (snd (login (P := RefPlatform) 9 "BOB" "s3cret" false world_bob))))
     = Returns false.
Proof.
  split.
  - exact (proj2 (remembered_in_new_context (P := RefPlatform) 9 10 "BOB" "s3cret" true
                    world_bob [bob] bob world_bob_directory bob_found_as_BOB bob_password
                    ltac:(discriminate))).
  - exact (proj2 (remembered_in_new_context (P := RefPlatform) 9 10 "BOB" "s3cret" false
                    world_bob [bob] bob world_bob_directory bob_found_as_BOB bob_password
                    ltac:(discriminate))).
Defined.

(** [logout_keeps_remembered] for Bob. *)
Lemma logout_keeps_remembered_witness :
  fst (isAuthenticated (P := RefPlatform) 10
         (snd (logout false
                 (snd (login (P := RefPlatform) 9 "BOB" "s3cret" true world_bob)))))
  = Returns true.
Proof.
  exact (proj2 (logout_keeps_remembered (P := RefPlatform) 9 10 "BOB" "s3cret" true
                  world_bob [bob] bob world_bob_directory bob_found_as_BOB bob_password
                  ltac:(discriminate))).
Defined.

(** [submit_outcome]: [  BOB ] with the right password goes to the
    products page. *)
Lemma submit_outcome_witness :
  location_href (on_submit (P := RefPlatform) trim 11 form_bob page_bob)
  = Some "products.html"
  /\ authError (on_submit (P := RefPlatform) trim 11 form_bob page_bob) = None.
Proof.
  pose proof (submit_outcome (P := RefPlatform) trim 11 form_bob page_bob [bob]
                "  BOB " "s3cret" world_bob_directory eq_refl ltac:(discriminate)
                eq_refl ltac:(discriminate)) as H.
  rewrite H. split; vm_compute; reflexivity.
Defined.

(** [submit_on_broken_store] at the store whose users key holds [42]. *)
Lemma submit_on_broken_store_witness :
  on_submit (P := RefPlatform) trim 11 form_bob page_number
  = mkPage world_number true (Some (mkAlert "An error occurred during login" false)) None.
Proof.
  pose proof (submit_on_broken_store (P := RefPlatform) trim 11 form_bob page_number
                "  BOB " "s3cret" eq_refl eq_refl ltac:(discriminate) eq_refl
                ltac:(discriminate)) as H.
  rewrite H. vm_compute. reflexivity.
Defined.

(** [first_visit_stays] from the empty store. *)
Lemma first_visit_stays_witness :
  fst (onDOMContentLoaded (P := RefPlatform) 1 2 empty_world) = Returns false.
Proof.
  apply (first_visit_stays (P := RefPlatform) 1 2 empty_world);
    [vm_compute; discriminate | reflexivity | reflexivity].
Defined.

(** [remembered_visitor_redirected] for Bob. *)
Lemma remembered_visitor_redirected_witness :
  fst (onDOMContentLoaded (P := RefPlatform) 12 13
         (new_context (snd (login (P := RefPlatform) 9 "BOB" "s3cret" true world_bob))))
  = Returns true.
Proof.
  exact (remembered_visitor_redirected (P := RefPlatform) 9 12 13 "BOB" "s3cret"
           world_bob [bob] bob world_bob_directory bob_found_as_BOB bob_password
           ltac:(discriminate)).
Defined.

(** [dev_session_is_a_login] from the empty store. *)
Lemma dev_session_is_a_login_witness :
  let w1 := snd (App.createDevSessionIfMissing (P := RefPlatform) 1 2 empty_world) in
  getSession (P := RefPlatform) 3 w1 = (Returns (App.devUser (P := RefPlatform) 1 2), w1).
Proof.
  cbv zeta.
  exact (proj1 (dev_session_is_a_login (P := RefPlatform) 1 2 3 empty_world eq_refl)).
Defined.
